(** * SplitWise backend: balances and settlements

    A shallow embedding of the balance calculators and settlement planners
    of the SplitWise backend ([routes/analytics.js], the monolithic
    [server.js]), of the expense-creation endpoint
    ([routes/expenses.js]), of the group report and of the endpoints that
    create and delete groups ([routes/groups.js], [server.js]), followed
    by the properties of the specification that concern them and by
    further properties of the code.

    Numbers.  A JavaScript number is modelled as a rational or one of
    the three non-finite values (no signed zero).  The balance
    calculators and the settlement planners are embedded over the
    rationals: [JS.add], [JS.sub] and [JS.div] are exact and do not
    overflow, which is an idealisation of the doubles of the program;
    what is proved of them is either a bound with a tolerance, a
    statement on keys and on who pays whom, or says in so many words
    that it holds over the rationals.  The check of the creation
    endpoint, which decides at one cent, is embedded in double precision:
    [JS.round] is the rounding of binary64 (to nearest, ties to even,
    overflow to infinity), and [JS.add64], [JS.sub64] round the exact
    result as the machine does.

    Objects.  A plain object used as a dictionary is an association list
    in insertion order with unique keys; member identifiers are opaque
    strings (names that JavaScript would enumerate first, such as
    integer-like keys, or that hit the prototype chain are outside the
    model).

    Text.  Strings are sequences of bytes and [toLowerCase] folds the
    ASCII letters only. *)

From Stdlib Require Import Ascii String ZArith QArith Qminmax Qabs Lqa.
From stdpp Require Import base list strings.

(** ** JavaScript numbers *)

Module JS.

Inductive number : Type :=
| Fin (q : Q)
| PInf
| NInf
| NaN.

Definition Qltb (a b : Q) : bool := negb (Qle_bool b a).

Definition isFinite (x : number) : bool :=
  match x with Fin _ => true | _ => false end.

Definition zero : number := Fin 0.

Definition neg (x : number) : number :=
  match x with
  | Fin a => Fin (- a)
  | PInf => NInf
  | NInf => PInf
  | NaN => NaN
  end.

Definition add (x y : number) : number :=
  match x, y with
  | NaN, _ | _, NaN => NaN
  | Fin a, Fin b => Fin (a + b)
  | PInf, NInf | NInf, PInf => NaN
  | PInf, _ | _, PInf => PInf
  | NInf, _ | _, NInf => NInf
  end.

Definition sub (x y : number) : number := add x (neg y).

(** [x / y]; a finite divisor that is zero is the positive zero (the
    only divisors of the program are array lengths). *)
Definition div (x y : number) : number :=
  match x, y with
  | NaN, _ | _, NaN => NaN
  | Fin a, Fin b =>
      if Qeq_bool b 0 then
        if Qltb 0 a then PInf else if Qltb a 0 then NInf else NaN
      else Fin (a / b)
  | Fin _, _ => Fin 0
  | PInf, Fin b => if Qltb b 0 then NInf else PInf
  | NInf, Fin b => if Qltb b 0 then PInf else NInf
  | _, _ => NaN
  end.

Definition lt (x y : number) : bool :=
  match x, y with
  | NaN, _ | _, NaN => false
  | Fin a, Fin b => Qltb a b
  | _, NInf => false
  | NInf, _ => true
  | PInf, _ => false
  | _, PInf => true
  end.

Definition gt (x y : number) : bool := lt y x.

Definition ge (x y : number) : bool :=
  match x, y with
  | NaN, _ | _, NaN => false
  | Fin a, Fin b => Qle_bool b a
  | _, NInf => true
  | NInf, _ => false
  | PInf, _ => true
  | _, PInf => false
  end.

(** [Math.min] *)
Definition min (x y : number) : number :=
  match x, y with
  | NaN, _ | _, NaN => NaN
  | _, _ => if lt y x then y else x
  end.

(** [Math.abs] *)
Definition abs (x : number) : number :=
  match x with
  | Fin a => Fin (Qabs a)
  | PInf | NInf => PInf
  | NaN => NaN
  end.

(** Truthiness of a number: everything but [0] and [NaN]. *)
Definition truthy (x : number) : bool :=
  match x with
  | Fin a => negb (Qeq_bool a 0)
  | PInf | NInf => true
  | NaN => false
  end.

(** [v || 0], where [v] is a number or [undefined]. *)
Definition orZero (v : option number) : number :=
  match v with
  | Some x => if truthy x then x else zero
  | None => zero
  end.

Definition ofNat (n : nat) : number := Fin (inject_Z (Z.of_nat n)).

(** The rational a finite number stands for. *)
Definition toQ (x : number) : Q :=
  match x with Fin a => a | _ => 0 end.

(** *** Double precision

    [roundPos n d] is the double nearest to [n / d], for [0 < n]: with
    [2 ^ e <= n / d < 2 ^ (e + 1)], the quotient is rounded to a multiple
    of [2 ^ p], where [p] is [e - 52] or, for the subnormal numbers,
    [-1074]; a tie goes to the even multiple, and what rounds to
    [2 ^ 1024] or more is infinite. *)
Definition roundPos (n : Z) (d : positive) : number :=
  let e0 := (Z.log2 n - Z.log2 (Zpos d))%Z in
  let above :=
    if (0 <=? e0)%Z then (Zpos d * 2 ^ e0 <=? n)%Z
    else (Zpos d <=? n * 2 ^ (- e0))%Z in
  let e := if above then e0 else (e0 - 1)%Z in
  let p := Z.max (e - 52) (-1074) in
  let num := if (0 <=? p)%Z then n else (n * 2 ^ (- p))%Z in
  let den := if (0 <=? p)%Z then (Zpos d * 2 ^ p)%Z else Zpos d in
  let m := (num / den)%Z in
  let r := (num mod den)%Z in
  let m' :=
    if (den <? 2 * r)%Z || ((2 * r =? den)%Z && Z.odd m)
    then (m + 1)%Z else m in
  if (2 ^ (1024 - p) <=? m')%Z then PInf
  else if (0 <=? p)%Z then Fin (inject_Z (m' * 2 ^ p))
       else Fin (Qred (Qmake m' (Z.to_pos (2 ^ (- p))))).

Definition round (q : Q) : number :=
  match Qnum q with
  | Z0 => Fin 0
  | Zpos n => roundPos (Zpos n) (Qden q)
  | Zneg n => neg (roundPos (Zpos n) (Qden q))
  end.

(** The double that a decimal literal denotes. *)
Definition literal (q : Q) : number := round q.

(** The result of an operation of the machine: the exact result,
    rounded. *)
Definition rounded (x : number) : number :=
  match x with
  | Fin q => round q
  | _ => x
  end.

(** [x + y] and [x - y] on doubles *)
Definition add64 (x y : number) : number := rounded (add x y).
Definition sub64 (x y : number) : number := rounded (sub x y).

End JS.

(** ** Objects used as dictionaries *)

Module Obj.
Section Obj.
Context {V : Type}.

Definition t : Type := list (string * V).

(** [o[k]], [undefined] being [None] *)
Fixpoint get (o : t) (k : string) : option V :=
  match o with
  | [] => None
  | (k', v) :: o' => if String.eqb k k' then Some v else get o' k
  end.

(** [o[k] = v]: an existing key keeps its place, a new key is added last *)
Fixpoint set (o : t) (k : string) (v : V) : t :=
  match o with
  | [] => [(k, v)]
  | (k', v') :: o' =>
      if String.eqb k k' then (k', v) :: o' else (k', v') :: set o' k v
  end.

Definition hasOwnProperty (o : t) (k : string) : bool :=
  match get o k with Some _ => true | None => false end.

(** [o[k] = f(o[k])] for a key that is present; nothing otherwise *)
Definition update (o : t) (k : string) (f : V -> V) : t :=
  match get o k with
  | Some v => set o k (f v)
  | None => o
  end.

(** [Object.keys], [Object.values], [Object.entries] *)
Definition keys (o : t) : list string := map fst o.
Definition values (o : t) : list V := map snd o.
Definition entries (o : t) : list (string * V) := o.

(** A well-formed object has each key once. *)
Definition wf (o : t) : Prop := NoDup (keys o).

End Obj.
Arguments t : clear implicits.
End Obj.

(** ** Stored documents ([models/schemas.js]) *)

Module Schema.

(** An expense as read back from the store.  [customAmounts] is a
    [Map] of numbers or [null]; stored amounts are finite. *)
Record Expense : Type := {
  groupId : string;
  title : string;
  amount : Q;
  paidBy : string;
  date : string;
  splitAmong : list string;
  splitMethod : string;
  customAmounts : option (list (string * Q));
  category : string;
  createdBy : string;
}.

Record Group : Type := {
  _id : string;
  name : string;
  members : list string;
  owner : string;  (* [createdBy] *)
  updatedAt : nat; (* a [Date], in milliseconds *)
}.

End Schema.

(** A settlement [{from, to, amount}]. *)
Module Settlement.
Record t : Type := mk {
  from : string;
  to : string;
  amount : JS.number;
}.
End Settlement.

(** ** The store of dictionary objects

    Objects are passed by reference: a reference is an index into the
    store, and a function that receives an object receives its
    reference. *)

Module Store.

Definition ref : Type := nat.
Definition t : Type := list (Obj.t JS.number).

Definition M (A : Type) : Type := t -> A * t.

Definition ret {A} (a : A) : M A := fun s => (a, s).
Definition bind {A B} (m : M A) (f : A -> M B) : M B :=
  fun s => let '(a, s') := m s in f a s'.

(** a new object, [{ ...o }] when [o] is the content of another one *)
Definition alloc (o : Obj.t JS.number) : M ref :=
  fun s => (length s, s ++ [o]).

(** [Object.keys(r)] *)
Definition keysOf (r : ref) : M (list string) :=
  fun s => (from_option Obj.keys [] (s !! r), s).

(** the content of [r], for [{ ...r }] *)
Definition contentOf (r : ref) : M (Obj.t JS.number) :=
  fun s => (default [] (s !! r), s).

(** [r[k]] *)
Definition getProp (r : ref) (k : string) : M (option JS.number) :=
  fun s => (match s !! r with Some o => Obj.get o k | None => None end, s).

(** [r[k] = f(r[k])], as in [r[k] -= x] *)
Definition updateProp (r : ref) (k : string) (f : JS.number -> JS.number)
  : M unit :=
  fun s => (tt, alter (fun o => Obj.update o k f) r s).

(** [for (let x = lo; x < lo + count; x++) acc = f(x, acc)] *)
Fixpoint forRange {A} (lo count : nat) (f : nat -> A -> M A) (acc : A)
  : M A :=
  match count with
  | O => ret acc
  | S count' => bind (f lo acc) (forRange (S lo) count' f)
  end.

End Store.

(** ** [routes/analytics.js] *)

Module Analytics.
Import Schema.

Definition balancesInit (members : list string) : Obj.t JS.number :=
  fold_left (fun balances member => Obj.set balances member JS.zero)
            members [].

(** [if (balances.hasOwnProperty(member)) balances[member] -= x] *)
Definition debit (balances : Obj.t JS.number) (member : string)
           (x : JS.number) : Obj.t JS.number :=
  if Obj.hasOwnProperty balances member
  then Obj.update balances member (fun b => JS.sub b x)
  else balances.

(** [if (balances.hasOwnProperty(member)) balances[member] += x] *)
Definition credit (balances : Obj.t JS.number) (member : string)
           (x : JS.number) : Obj.t JS.number :=
  if Obj.hasOwnProperty balances member
  then Obj.update balances member (fun b => JS.add b x)
  else balances.

(** [expense.splitMethod === 'custom' && expense.customAmounts] *)
Definition usesCustom (expense : Expense) : option (list (string * Q)) :=
  if String.eqb (splitMethod expense) "custom" then customAmounts expense
  else None.

(** The quotient computed at the head of the equal-split branch. *)
Definition sharePerPerson (expense : Expense) : JS.number :=
  let splitCount := length (splitAmong expense) in
  JS.div (JS.Fin (amount expense)) (JS.ofNat splitCount).

(** The body of [expenses.forEach]. *)
Definition applyExpense (balances : Obj.t JS.number) (expense : Expense)
  : Obj.t JS.number :=
  let balances :=
    match usesCustom expense with
    | Some custom =>
        fold_left (fun balances '(member, amt) =>
                     debit balances member (JS.Fin amt))
                  custom balances
    | None =>
        let share := sharePerPerson expense in
        fold_left (fun balances member => debit balances member share)
                  (splitAmong expense) balances
    end in
  credit balances (paidBy expense) (JS.Fin (amount expense)).

Definition calculateBalances (expenses : list Expense)
           (members : list string) : Obj.t JS.number :=
  fold_left applyExpense expenses (balancesInit members).

(** The body of the inner loop of [calculateSettlements] for
    [member1 = members[i]] and [member2 = members[j]]; a comparison
    with [undefined] is false. *)
Definition pair (balanceCopy : Store.ref) (member1 member2 : string)
           (settlements : list Settlement.t)
  : Store.M (list Settlement.t) :=
  Store.bind (Store.getProp balanceCopy member1) (fun balance1 =>
  Store.bind (Store.getProp balanceCopy member2) (fun balance2 =>
  match balance1, balance2 with
  | Some balance1, Some balance2 =>
      if JS.gt balance1 (JS.Fin 0.01) && JS.lt balance2 (JS.Fin (-0.01))
      then
        let amount := JS.min balance1 (JS.neg balance2) in
        let settlements :=
          settlements ++ [Settlement.mk member2 member1 amount] in
        Store.bind (Store.updateProp balanceCopy member1
                                     (fun v => JS.sub v amount)) (fun _ =>
        Store.bind (Store.updateProp balanceCopy member2
                                     (fun v => JS.add v amount)) (fun _ =>
        Store.ret settlements))
      else Store.ret settlements
  | _, _ => Store.ret settlements
  end)).

Definition inner (balanceCopy : Store.ref) (members : list string)
           (i : nat) (settlements : list Settlement.t)
  : Store.M (list Settlement.t) :=
  Store.forRange (S i) (length members - S i)
    (fun j settlements =>
       match members !! i, members !! j with
       | Some member1, Some member2 =>
           pair balanceCopy member1 member2 settlements
       | _, _ => Store.ret settlements
       end)
    settlements.

(** [calculateSettlements(balances)], [balances] being a reference. *)
Definition calculateSettlements (balances : Store.ref)
  : Store.M (list Settlement.t) :=
  Store.bind (Store.keysOf balances) (fun members =>
  Store.bind (Store.contentOf balances) (fun content =>
  Store.bind (Store.alloc content) (fun balanceCopy =>
  Store.forRange 0 (length members) (inner balanceCopy members) []))).

End Analytics.

(** ** [server.js] *)

Module Server.

(** An entry [{person, amount}] of the [debtors] and [creditors] arrays. *)
Record party : Type := mkParty {
  person : string;
  amount : JS.number;
}.

(** The variables of [calculateSettlements] that the loop changes. *)
Record state : Type := mkState {
  debtors : list party;
  creditors : list party;
  i : nat;
  j : nat;
  settlements : list Settlement.t;
}.

(** The callback of [Object.entries(balances).forEach]. *)
Definition classify (acc : list party * list party)
           (entry : string * JS.number) : list party * list party :=
  let '(debtors, creditors) := acc in
  let '(person, balance) := entry in
  if JS.lt balance (JS.Fin (-0.01)) then
    (debtors ++ [mkParty person (JS.neg balance)], creditors)
  else if JS.gt balance (JS.Fin 0.01) then
    (debtors, creditors ++ [mkParty person balance])
  else (debtors, creditors).

Definition partition (balances : Obj.t JS.number)
  : list party * list party :=
  fold_left classify (Obj.entries balances) ([], []).

(** One pass through the body of the [while] loop, [d] and [c] being
    [debtors[i]] and [creditors[j]]. *)
Definition body (st : state) (d c : party) : state :=
  let amt := JS.min (amount d) (amount c) in
  let settlements :=
    settlements st ++ [Settlement.mk (person d) (person c) amt] in
  let d' := mkParty (person d) (JS.sub (amount d) amt) in
  let c' := mkParty (person c) (JS.sub (amount c) amt) in
  let debtors := <[i st := d']> (debtors st) in
  let creditors := <[j st := c']> (creditors st) in
  let i' := if JS.lt (amount d') (JS.Fin 0.01) then S (i st) else i st in
  let j' := if JS.lt (amount c') (JS.Fin 0.01) then S (j st) else j st in
  mkState debtors creditors i' j' settlements.

(** [while (i < debtors.length && j < creditors.length) body]; [None]
    when the loop is still running after [fuel] passes. *)
Fixpoint while (fuel : nat) (st : state) : option state :=
  match debtors st !! i st, creditors st !! j st with
  | Some d, Some c =>
      match fuel with
      | O => None
      | S fuel' => while fuel' (body st d c)
      end
  | _, _ => Some st
  end.

Definition initial (balances : Obj.t JS.number) : state :=
  let '(debtors, creditors) := partition balances in
  mkState debtors creditors 0 0 [].

Definition settle (fuel : nat) (balances : Obj.t JS.number)
  : option (list Settlement.t) :=
  settlements <$> while fuel (initial balances).

(** The planner, run for as many passes as there are entries in the two
    arrays (every terminating run is shorter, see [while_fuel]). *)
Definition calculateSettlements (balances : Obj.t JS.number)
  : option (list Settlement.t) :=
  let st := initial balances in
  settle (length (debtors st) + length (creditors st)) balances.

(** [balances[k] = (balances[k] || 0) + x] *)
Definition bump (balances : Obj.t JS.number) (k : string) (x : JS.number)
  : Obj.t JS.number :=
  Obj.set balances k (JS.add (JS.orZero (Obj.get balances k)) x).

(** [balances[k] = (balances[k] || 0) - x] *)
Definition drop (balances : Obj.t JS.number) (k : string) (x : JS.number)
  : Obj.t JS.number :=
  Obj.set balances k (JS.sub (JS.orZero (Obj.get balances k)) x).

(** [customAmounts.get(member) || 0] *)
Definition customShare (custom : list (string * Q)) (member : string)
  : JS.number :=
  JS.orZero (JS.Fin <$> Obj.get custom member).

Definition splitAmount (expense : Schema.Expense) : JS.number :=
  JS.div (JS.Fin (Schema.amount expense))
         (JS.ofNat (length (Schema.splitAmong expense))).

(** The body of [expenses.forEach] in [calculateGroupAnalytics]. *)
Definition applyExpense (balances : Obj.t JS.number)
           (expense : Schema.Expense) : Obj.t JS.number :=
  let balances :=
    bump balances (Schema.paidBy expense)
         (JS.Fin (Schema.amount expense)) in
  match Analytics.usesCustom expense with
  | Some custom =>
      fold_left (fun balances member =>
                   drop balances member (customShare custom member))
                (Schema.splitAmong expense) balances
  | None =>
      let share := splitAmount expense in
      fold_left (fun balances member => drop balances member share)
                (Schema.splitAmong expense) balances
  end.

Definition groupBalances (expenses : list Schema.Expense)
           (members : list string) : Obj.t JS.number :=
  fold_left applyExpense expenses (Analytics.balancesInit members).

(** The result of [calculateGroupAnalytics], without the two fields
    that only reshape the expense list ([categoryData],
    [recentExpenses]). *)
Record analytics : Type := mkAnalytics {
  totalSpending : JS.number;
  splitPerPerson : JS.number;
  averageExpense : JS.number;
  totalExpenses : nat;
  balances : Obj.t JS.number;
  groupSettlements : list Settlement.t;
}.

Definition calculateGroupAnalytics (expenses : list Schema.Expense)
           (members : list string) : option analytics :=
  let total :=
    fold_left (fun sum exp => JS.add sum (JS.Fin (Schema.amount exp)))
              expenses JS.zero in
  let balances := groupBalances expenses members in
  match calculateSettlements balances with
  | Some settlements =>
      Some (mkAnalytics
              (JS.orZero (Some total))
              (if (0 <? length members)%nat
               then JS.div total (JS.ofNat (length members)) else JS.zero)
              (if (0 <? length expenses)%nat
               then JS.div total (JS.ofNat (length expenses)) else JS.zero)
              (length expenses)
              balances
              settlements)
  | None => None
  end.

End Server.

(** ** [routes/expenses.js] *)

Module Expenses.

Definition lowerAscii (c : ascii) : ascii :=
  let n := nat_of_ascii c in
  if (65 <=? n)%nat && (n <=? 90)%nat then ascii_of_nat (n + 32) else c.

(** [toLowerCase] on ASCII text *)
Fixpoint toLowerCase (s : string) : string :=
  match s with
  | EmptyString => EmptyString
  | String c s' => String (lowerAscii c) (toLowerCase s')
  end.

(** [s.includes(pat)] *)
Fixpoint includes (s pat : string) : bool :=
  String.prefix pat s ||
  match s with
  | EmptyString => false
  | String _ s' => includes s' pat
  end.

Definition categorizeExpense (title : string) : string :=
  let lower := toLowerCase title in
  if includes lower "food" || includes lower "dinner" ||
     includes lower "lunch" || includes lower "breakfast" then "Food"
  else if includes lower "rent" || includes lower "hotel" then "Housing"
  else if includes lower "grocery" || includes lower "groceries" ||
          includes lower "vegetable" then "Groceries"
  else if includes lower "transport" || includes lower "uber" ||
          includes lower "taxi" then "Transport"
  else if includes lower "movie" || includes lower "entertainment"
       then "Entertainment"
  else "Other".

(** The request: the authenticated user and the fields read from
    [req.body]; a field that is absent is [None].  Numbers of a JSON
    body are finite doubles. *)
Record request : Type := {
  userId : string;
  groupId : option string;
  title : option string;
  amount : option Q;
  paidBy : option string;
  date : option string;
  splitAmong : option (list string);
  splitMethod : option string;
  customAmounts : option (list (string * Q));
}.

Record response : Type := mkResponse {
  status : nat;
  error : string;
  expense : option Schema.Expense;
}.

Record database : Type := mkDatabase {
  groups : list Schema.Group;
  expenses : list Schema.Expense;
}.

(** [!s] is false for a string that is present and not empty *)
Definition truthyString (s : option string) : option string :=
  match s with
  | Some EmptyString | None => None
  | Some s => Some s
  end.

(** [!x] is false for a number that is present and not zero *)
Definition truthyNumber (x : option Q) : option Q :=
  match x with
  | Some q => if Qeq_bool q 0 then None else Some q
  | None => None
  end.

(** [Group.findOne({ _id: groupId, createdBy: userId })] *)
Definition findGroup (db : database) (groupId userId : string)
  : option Schema.Group :=
  List.find (fun g => String.eqb (Schema._id g) groupId &&
                      String.eqb (Schema.owner g) userId)
            (groups db).

(** [Object.values(customAmounts).reduce((sum, amt) => sum + amt, 0)],
    in double precision *)
Definition totalCustom (customAmounts : list (string * Q)) : JS.number :=
  fold_left (fun sum amt => JS.add64 sum (JS.Fin amt))
            (Obj.values customAmounts) JS.zero.

(** [Math.abs(totalCustom - amount) >= 0.01], in double precision *)
Definition offByACent (customAmounts : list (string * Q)) (amount : Q)
  : bool :=
  JS.ge (JS.abs (JS.sub64 (totalCustom customAmounts) (JS.Fin amount)))
        (JS.literal 0.01).

(** [Group.findByIdAndUpdate(groupId, { updatedAt: now })]: the first
    group with this [_id] gets the date. *)
Fixpoint touch (now : nat) (groupId : string) (groups : list Schema.Group)
  : list Schema.Group :=
  match groups with
  | [] => []
  | g :: rest =>
      if String.eqb (Schema._id g) groupId then
        {| Schema._id := Schema._id g; Schema.name := Schema.name g;
           Schema.members := Schema.members g;
           Schema.owner := Schema.owner g; Schema.updatedAt := now |}
          :: rest
      else g :: touch now groupId rest
  end.

Definition bad (msg : string) : response := mkResponse 400 msg None.

(** The object that the handler hands to [Expense.create], with the
    category of "Auto-categorize expense". *)
Definition document (user groupId title : string)
           (amount : Q) (paidBy date : string)
           (splitAmong : list string) (splitMethod : option string)
           (customAmounts : option (list (string * Q)))
  : Schema.Expense :=
  let category := categorizeExpense title in
  let isCustom :=
    match splitMethod with
    | Some m => String.eqb m "custom"
    | None => false
    end in
  {| Schema.groupId := groupId; Schema.title := title;
     Schema.amount := amount; Schema.paidBy := paidBy;
     Schema.date := date; Schema.splitAmong := splitAmong;
     Schema.splitMethod :=
       default "equal" (truthyString splitMethod);
     Schema.customAmounts :=
       if isCustom then customAmounts else None;
     Schema.category := category; Schema.createdBy := user |}.

Section Handler.
(** [Expense.create] succeeds on the documents that pass the casts and
    validators of the schema, and throws on the others. *)
Variable accepts : Schema.Expense -> bool.
(** [Group.findByIdAndUpdate] throws when the store fails on it; the
    reads of the store are taken to succeed. *)
Variable updates : string -> bool.
(** [Date.now()] *)
Variable now : nat.

(** From "Auto-categorize expense" to the end of the handler. *)
Definition create (db : database) (user groupId title : string)
           (amount : Q) (paidBy date : string)
           (splitAmong : list string) (splitMethod : option string)
           (customAmounts : option (list (string * Q)))
  : response * database :=
  let doc := document user groupId title amount paidBy date splitAmong
                      splitMethod customAmounts in
  if accepts doc then
    if updates groupId then
      (mkResponse 201 "" (Some doc),
       mkDatabase (touch now groupId (groups db)) (expenses db ++ [doc]))
    else
      (mkResponse 500 "Server error creating expense" None,
       mkDatabase (groups db) (expenses db ++ [doc]))
  else (mkResponse 500 "Server error creating expense" None, db).

(** [router.post('/')] *)
Definition postExpense (db : database) (req : request)
  : response * database :=
  match truthyString (groupId req), truthyString (title req),
        truthyNumber (amount req), truthyString (paidBy req),
        truthyString (date req), splitAmong req with
  | Some groupId, Some title, Some amount, Some paidBy, Some date,
    Some splitAmong =>
      match findGroup db groupId (userId req) with
      | None => (mkResponse 404 "Group not found" None, db)
      | Some _ =>
          if match splitMethod req with
             | Some m => String.eqb m "custom"
             | None => false
             end
          then
            match customAmounts req with
            | None =>
                (bad "Custom amounts required for custom split method",
                 db)
            | Some custom =>
                if offByACent custom amount
                then (bad "Custom amounts must sum to total amount", db)
                else create db (userId req) groupId title amount paidBy
                            date splitAmong (splitMethod req)
                            (customAmounts req)
            end
          else create db (userId req) groupId title amount paidBy date
                      splitAmong (splitMethod req) (customAmounts req)
      end
  | _, _, _, _, _, _ =>
      (bad "Please provide all required fields", db)
  end.
End Handler.

End Expenses.

(** ** [routes/analytics.js]: the report of a group *)

Module AnalyticsRoute.

(** [expenses.reduce((sum, e) => sum + e.amount, 0)] *)
Definition sumAmounts (expenses : list Schema.Expense) : JS.number :=
  fold_left (fun sum e => JS.add sum (JS.Fin (Schema.amount e)))
            expenses JS.zero.

(** [expense.category || 'Other'] *)
Definition categoryOf (expense : Schema.Expense) : string :=
  match Schema.category expense with
  | EmptyString => "Other"
  | category => category
  end.

(** The "Category breakdown" loop:
    [categoryData[category] = (categoryData[category] || 0) + amount]. *)
Definition categoryTotals (expenses : list Schema.Expense)
  : Obj.t JS.number :=
  fold_left (fun categoryData expense =>
               Server.bump categoryData (categoryOf expense)
                           (JS.Fin (Schema.amount expense)))
            expenses [].

(** The [analytics] object of the response, without [recentExpenses]. *)
Record analytics : Type := mkAnalytics {
  totalSpending : JS.number;
  averageExpense : JS.number;
  splitPerPerson : JS.number;
  totalExpenses : nat;
  categoryData : Obj.t JS.number;
  balances : Obj.t JS.number;
  settlements : list Settlement.t;
}.

(** [Expense.find({ groupId })] *)
Definition expensesOf (db : Expenses.database) (groupId : string)
  : list Schema.Expense :=
  List.filter (fun e => String.eqb (Schema.groupId e) groupId)
              (Expenses.expenses db).

(** [router.get('/group/:groupId')]; [None] is the 404 response.  The
    balances are a new object of the store, handed to
    [calculateSettlements] by reference. *)
Definition groupAnalytics (db : Expenses.database)
           (userId groupId : string) : option analytics :=
  match Expenses.findGroup db groupId userId with
  | None => None
  | Some group =>
      let expenses := expensesOf db groupId in
      let totalSpending := sumAmounts expenses in
      let averageExpense :=
        if (0 <? length expenses)%nat
        then JS.div totalSpending (JS.ofNat (length expenses))
        else JS.zero in
      let splitPerPerson :=
        JS.div totalSpending
               (JS.ofNat (length (Schema.members group))) in
      let categoryData := categoryTotals expenses in
      let balances :=
        Analytics.calculateBalances expenses (Schema.members group) in
      let settlements :=
        fst (Store.bind (Store.alloc balances)
                        Analytics.calculateSettlements []) in
      Some (mkAnalytics totalSpending averageExpense splitPerPerson
                        (length expenses) categoryData balances
                        settlements)
  end.

End AnalyticsRoute.

(** ** [server.js]: the category breakdowns *)

Module ServerReport.

(** [title.split(' ')[0]]: the title up to its first space *)
Fixpoint firstWord (title : string) : string :=
  match title with
  | EmptyString => EmptyString
  | String c rest =>
      if Ascii.eqb c " " then EmptyString else String c (firstWord rest)
  end.

(** [expense.title.split(' ')[0] || 'Uncategorized'] *)
Definition groupCategory (expense : Schema.Expense) : string :=
  match firstWord (Schema.title expense) with
  | EmptyString => "Uncategorized"
  | category => category
  end.

(** [categoryData] of [calculateGroupAnalytics] *)
Definition groupCategoryData (expenses : list Schema.Expense)
  : Obj.t JS.number :=
  fold_left (fun categoryData expense =>
               Server.bump categoryData (groupCategory expense)
                           (JS.Fin (Schema.amount expense)))
            expenses [].

(** [categoryData] of [calculateUserAnalytics] *)
Definition userCategoryData (expenses : list Schema.Expense)
  : Obj.t JS.number :=
  fold_left (fun categoryData expense =>
               Server.bump categoryData
                           (firstWord (Schema.title expense))
                           (JS.Fin (Schema.amount expense)))
            expenses [].

End ServerReport.

(** ** [routes/groups.js] *)

Module Groups.

Record request : Type := {
  userId : string;
  name : option string;
  members : option (list string);
}.

Record response : Type := mkResponse {
  status : nat;
  error : string;
  group : option Schema.Group;
}.

Section Create.
(** [Group.create] succeeds on the documents that pass the validators of
    the schema, and throws on the others. *)
Variable accepts : Schema.Group -> bool.
(** [Date.now], the default of [updatedAt] *)
Variable now : nat.

(** [router.post('/')]; [id] is the [_id] that the store gives to the
    new document. *)
Definition postGroup (db : Expenses.database) (id : string)
           (req : request) : response * Expenses.database :=
  match Expenses.truthyString (name req), members req with
  | Some name, Some (member :: others) =>
      let doc :=
        {| Schema._id := id; Schema.name := name;
           Schema.members := member :: others;
           Schema.owner := userId req; Schema.updatedAt := now |} in
      if accepts doc then
        (mkResponse 201 "" (Some doc),
         Expenses.mkDatabase (Expenses.groups db ++ [doc])
                             (Expenses.expenses db))
      else (mkResponse 500 "Server error creating group" None, db)
  | _, _ =>
      (mkResponse 400 "Please provide group name and at least one member"
                  None, db)
  end.
End Create.

(** [findOneAndDelete(filter)]: the first document that matches goes *)
Fixpoint removeFirst (matches : Schema.Group -> bool)
         (groups : list Schema.Group) : list Schema.Group :=
  match groups with
  | [] => []
  | g :: rest => if matches g then rest else g :: removeFirst matches rest
  end.

(** [router.delete('/:id')] *)
Definition deleteGroup (db : Expenses.database) (userId id : string)
  : response * Expenses.database :=
  match Expenses.findGroup db id userId with
  | None => (mkResponse 404 "Group not found" None, db)
  | Some _ =>
      (mkResponse 200 "" None,
       Expenses.mkDatabase
         (removeFirst (fun g => String.eqb (Schema._id g) id &&
                                String.eqb (Schema.owner g) userId)
                      (Expenses.groups db))
         (List.filter (fun e => negb (String.eqb (Schema.groupId e) id))
                      (Expenses.expenses db)))
  end.

End Groups.

(** * The group deletion of server.js

    [app.delete('/api/groups/:id')]: [Group.findByIdAndDelete(id)], then
    [Expense.deleteMany({ groupId: id })], for any authenticated
    requester. *)
Module ServerRoutes.

Definition deleteGroup (db : Expenses.database) (id : string)
  : Expenses.database :=
  Expenses.mkDatabase
    (Groups.removeFirst (fun g => String.eqb (Schema._id g) id)
                        (Expenses.groups db))
    (List.filter (fun e => negb (String.eqb (Schema.groupId e) id))
                 (Expenses.expenses db)).

End ServerRoutes.

(** ** Notions of the specification *)





(** [sum(balances.values())] *)
Definition sumValues (balances : Obj.t JS.number) : JS.number :=
  fold_left JS.add (Obj.values balances) JS.zero.

Module Scenario.
Import Schema.
Definition dinner : Expense :=
  {| groupId := "g1"; title := "Dinner"; amount := 90; paidBy := "A";
     date := "2024-01-01"; splitAmong := ["A"; "B"; "C"];
     splitMethod := "equal"; customAmounts := None;
     category := "Food"; createdBy := "u1" |}.
Definition hotel : Expense :=
  {| groupId := "g1"; title := "Hotel"; amount := 100; paidBy := "A";
     date := "2024-01-02"; splitAmong := ["A"; "B"];
     splitMethod := "custom";
     customAmounts := Some [("A", 20%Q); ("B", 80%Q)];
     category := "Housing"; createdBy := "u1" |}.

(** an equal split among the others *)
Definition treat : Expense :=
  {| groupId := "g1"; title := "Breakfast"; amount := 90; paidBy := "A";
     date := "2024-01-06"; splitAmong := ["B"; "C"];
     splitMethod := "equal"; customAmounts := None;
     category := "Food"; createdBy := "u1" |}.

(** an equal split among nobody *)
Definition solo : Expense :=
  {| groupId := "g1"; title := "Taxi"; amount := 10; paidBy := "A";
     date := "2024-01-03"; splitAmong := [];
     splitMethod := "equal"; customAmounts := None;
     category := "Transport"; createdBy := "u1" |}.

(** paid by somebody who is not a member of the group *)
Definition outsider : Expense :=
  {| groupId := "g1"; title := "Lunch"; amount := 10; paidBy := "Z";
     date := "2024-01-04"; splitAmong := ["A"];
     splitMethod := "equal"; customAmounts := None;
     category := "Food"; createdBy := "u1" |}.

(** a custom share for somebody who is not a member of the group *)
Definition stranger : Expense :=
  {| groupId := "g1"; title := "Movie"; amount := 10; paidBy := "A";
     date := "2024-01-05"; splitAmong := ["B"];
     splitMethod := "custom"; customAmounts := Some [("B", 10%Q)];
     category := "Entertainment"; createdBy := "u1" |}.

Definition roommates : Group :=
  {| _id := "g1"; name := "Roommates"; members := ["A"; "B"; "C"];
     owner := "u1"; updatedAt := 0 |}.

Definition db : Expenses.database :=
  Expenses.mkDatabase [roommates] [].

(** the request that creates [solo] *)
Definition soloRequest : Expenses.request :=
  {| Expenses.userId := "u1"; Expenses.groupId := Some "g1";
     Expenses.title := Some "Taxi"; Expenses.amount := Some 10%Q;
     Expenses.paidBy := Some "A"; Expenses.date := Some "2024-01-03";
     Expenses.splitAmong := Some []; Expenses.splitMethod := None;
     Expenses.customAmounts := None |}.

(** a consistent custom split, without a title *)
Definition untitledRequest : Expenses.request :=
  {| Expenses.userId := "u1"; Expenses.groupId := Some "g1";
     Expenses.title := None; Expenses.amount := Some 100%Q;
     Expenses.paidBy := Some "A"; Expenses.date := Some "2024-01-02";
     Expenses.splitAmong := Some ["A"; "B"];
     Expenses.splitMethod := Some "custom";
     Expenses.customAmounts := Some [("A", 20%Q); ("B", 80%Q)] |}.

(** the request that creates [hotel] *)
Definition hotelRequest : Expenses.request :=
  {| Expenses.userId := "u1"; Expenses.groupId := Some "g1";
     Expenses.title := Some "Hotel"; Expenses.amount := Some 100%Q;
     Expenses.paidBy := Some "A"; Expenses.date := Some "2024-01-02";
     Expenses.splitAmong := Some ["A"; "B"];
     Expenses.splitMethod := Some "custom";
     Expenses.customAmounts := Some [("A", 20%Q); ("B", 80%Q)] |}.

(** The request that [JSON.parse] makes of a custom split of
    [amount] between A and B, the numbers being written in decimal. *)
Definition customRequest (amount a b : Q) : Expenses.request :=
  {| Expenses.userId := "u1"; Expenses.groupId := Some "g1";
     Expenses.title := Some "Snack";
     Expenses.amount := Some (JS.toQ (JS.literal amount));
     Expenses.paidBy := Some "A"; Expenses.date := Some "2024-01-07";
     Expenses.splitAmong := Some ["A"; "B"];
     Expenses.splitMethod := Some "custom";
     Expenses.customAmounts :=
       Some [("A", JS.toQ (JS.literal a)); ("B", JS.toQ (JS.literal b))] |}.

(** one cent is missing: 0.03 + 0.04 against 0.08 *)
Definition shortRequest : Expenses.request := customRequest 0.08 0.03 0.04.

(** one cent is missing here too: 0.02 + 0.12 against 0.15 *)
Definition nearRequest : Expenses.request := customRequest 0.15 0.02 0.12.

Definition trip : Obj.t JS.number :=
  [("A", JS.Fin 60); ("B", JS.Fin (-30)); ("C", JS.Fin (-30))].


Definition settled : Obj.t JS.number :=
  [("A", JS.Fin 60); ("B", JS.Fin (-60)); ("C", JS.Fin 0.005)].

(** the group with two expenses *)
Definition ledger : Expenses.database :=
  Expenses.mkDatabase [roommates] [dinner; hotel].

Definition newGroup : Groups.request :=
  {| Groups.userId := "u1"; Groups.name := Some "Trip";
     Groups.members := Some ["A"; "B"] |}.
End Scenario.

(** ** Auxiliary notions for the proofs *)

(** Every value of the dictionary is a finite number. *)
Definition finite (o : Obj.t JS.number) : Prop :=
  Forall (fun e => JS.isFinite (snd e) = true) o.

(** The exact sum of the values of a dictionary of finite numbers. *)
Definition total (o : Obj.t JS.number) : Q :=
  fold_right (fun e acc => (JS.toQ (snd e) + acc)%Q) 0%Q o.

(** The sum of a list of rationals. *)
Definition Qsum (l : list Q) : Q := fold_right Qplus 0%Q l.

(** What expense [e] credits to member [k]. *)
Definition paid (e : Schema.Expense) (k : string) : Q :=
  if String.eqb (Schema.paidBy e) k then Schema.amount e else 0%Q.

(** What a list of [(member, share)] pairs charges to [k]. *)
Definition chargedTo (l : list (string * Q)) (k : string) : Q :=
  Qsum (map (fun p => if String.eqb (fst p) k then snd p else 0%Q) l).

(** The equal share of an expense, over the rationals. *)
Definition equalShare (e : Schema.Expense) : Q :=
  (Schema.amount e / inject_Z (Z.of_nat (length (Schema.splitAmong e))))%Q.

(** The [(member, share)] pairs that [Analytics.applyExpense] goes
    through for [e]. *)
Definition charges (e : Schema.Expense) : list (string * Q) :=
  match Analytics.usesCustom e with
  | Some custom => custom
  | None => map (fun m => (m, equalShare e)) (Schema.splitAmong e)
  end.

(** Debiting the pairs of [l] one after the other. *)
Definition debitAll (b : Obj.t JS.number) (l : list (string * Q))
  : Obj.t JS.number :=
  fold_left (fun b p => Analytics.debit b (fst p) (JS.Fin (snd p))) l b.

(** The balance of [k] in [b], a missing key counting for zero. *)
Definition balanceOf (b : Obj.t JS.number) (k : string) : Q :=
  match Obj.get b k with Some v => JS.toQ v | None => 0%Q end.

(** The [(member, share)] pairs that [Server.applyExpense] goes through
    for [e]: one per entry of [splitAmong]. *)
Definition serverCharges (e : Schema.Expense) : list (string * Q) :=
  match Analytics.usesCustom e with
  | Some custom =>
      map (fun m => (m, JS.toQ (Server.customShare custom m)))
          (Schema.splitAmong e)
  | None => map (fun m => (m, equalShare e)) (Schema.splitAmong e)
  end.

Definition dropAll (b : Obj.t JS.number) (l : list (string * Q))
  : Obj.t JS.number :=
  fold_left (fun b p => Server.drop b (fst p) (JS.Fin (snd p))) l b.

(** The net position of [k] over the expenses [es], as
    [Server.groupBalances] accounts for it. *)
Definition serverNet (es : list Schema.Expense) (k : string) : Q :=
  Qsum (map (fun e => (paid e k - chargedTo (serverCharges e) k)%Q) es).

(** The same for [Analytics.calculateBalances]. *)
Definition analyticsNet (es : list Schema.Expense) (k : string) : Q :=
  Qsum (map (fun e => (paid e k - chargedTo (charges e) k)%Q) es).





(** The debtors and the creditors of a balance map, in its order. *)
Definition isDebtor (entry : string * JS.number) : bool :=
  JS.lt (snd entry) (JS.Fin (-0.01)).

Definition isCreditor (entry : string * JS.number) : bool :=
  JS.gt (snd entry) (JS.Fin 0.01).

Fixpoint debtorsOf (b : Obj.t JS.number) : list Server.party :=
  match b with
  | [] => []
  | (p, v) :: b' =>
      if isDebtor (p, v) then Server.mkParty p (JS.neg v) :: debtorsOf b'
      else debtorsOf b'
  end.

Fixpoint creditorsOf (b : Obj.t JS.number) : list Server.party :=
  match b with
  | [] => []
  | (p, v) :: b' =>
      if isCreditor (p, v) then Server.mkParty p v :: creditorsOf b'
      else creditorsOf b'
  end.

(** The amounts held in the two arrays are finite. *)
Definition finiteParties (l : list Server.party) : Prop :=
  Forall (fun p => JS.isFinite (Server.amount p) = true) l.

Definition finiteState (st : Server.state) : Prop :=
  finiteParties (Server.debtors st) /\ finiteParties (Server.creditors st).

(** What is left of the two arrays. *)
Definition remaining (st : Server.state) : nat :=
  (length (Server.debtors st) - Server.i st) +
  (length (Server.creditors st) - Server.j st).

(** The store [s'] is the store [s] with one more object, the copy that
    the planner of [routes/analytics.js] works on. *)
Definition extends (s s' : Store.t) : Prop := exists o, s' = s ++ [o].


(** The dead zone. *)
Definition inDeadZone (v : JS.number) : Prop :=
  exists q, v = JS.Fin q /\ (-0.01 <= q)%Q /\ (q <= 0.01)%Q.



(** The sum of the amounts of a list of expenses. *)
Definition spent (es : list Schema.Expense) : Q :=
  Qsum (map Schema.amount es).

(** The expenses of [es] that [key] files under [c]. *)
Definition filedUnder (key : Schema.Expense -> string) (c : string)
           (es : list Schema.Expense) : list Schema.Expense :=
  List.filter (fun e => String.eqb (key e) c) es.

(** Filing the amounts of [es] under [key], one after the other. *)
Definition tally (key : Schema.Expense -> string)
           (es : list Schema.Expense) (b : Obj.t JS.number)
  : Obj.t JS.number :=
  fold_left (fun acc e => Server.bump acc (key e) (JS.Fin (Schema.amount e)))
            es b.


Definition serverLeftover (e : Schema.Expense) : Q :=
  (Schema.amount e - Qsum (map snd (serverCharges e)))%Q.



(** An equal split among somebody. *)
Definition equalSplit (e : Schema.Expense) : Prop :=
  Analytics.usesCustom e = None /\ Schema.splitAmong e <> [].

(** From the cursor [idx] on, every entry of the array holds 0.01 or
    more. *)
Definition pending (ps : list Server.party) (idx : nat) : Prop :=
  forall x p, (idx <= x)%nat -> ps !! x = Some p ->
              exists a, Server.amount p = JS.Fin a /\ (0.01 <= a)%Q.


(** The entries of a balance map that the planner of server.js looks
    at. *)
Definition unsettled (entry : string * JS.number) : bool :=
  isDebtor entry || isCreditor entry.

(** A settlement of routes/analytics.js pairs two keys of the map, the
    one that is paid before the one that pays, for more than 0.01. *)
Definition pairedIn (members : list string) (st : Settlement.t) : Prop :=
  exists i j, (i < j)%nat /\
              members !! i = Some (Settlement.to st) /\
              members !! j = Some (Settlement.from st) /\
              JS.gt (Settlement.amount st) (JS.Fin 0.01) = true.

(** A required field of the creation request is missing, empty or
    zero. *)
Definition missingField (req : Expenses.request) : Prop :=
  Expenses.truthyString (Expenses.groupId req) = None \/
  Expenses.truthyString (Expenses.title req) = None \/
  Expenses.truthyNumber (Expenses.amount req) = None \/
  Expenses.truthyString (Expenses.paidBy req) = None \/
  Expenses.truthyString (Expenses.date req) = None \/
  Expenses.splitAmong req = None.

(** The categories of the schema of an expense. *)
Definition categories : list string :=
  ["Food"; "Housing"; "Groceries"; "Transport"; "Entertainment";
   "Other"]%string.

(** [g'] is [g], but for the date [now] if [g] is the group [gid]. *)
Definition dated (now : nat) (gid : string) (g g' : Schema.Group) : Prop :=
  Schema._id g' = Schema._id g /\ Schema.name g' = Schema.name g /\
  Schema.members g' = Schema.members g /\
  Schema.owner g' = Schema.owner g /\
  (g' = g \/ (Schema._id g = gid /\ Schema.updatedAt g' = now)).

(** The same number: the same rational or the same non-finite value. *)
Definition sameNumber (x y : JS.number) : Prop :=
  match x, y with
  | JS.Fin a, JS.Fin b => (a == b)%Q
  | JS.PInf, JS.PInf | JS.NInf, JS.NInf | JS.NaN, JS.NaN => True
  | _, _ => False
  end.

(** The names that every object inherits from [Object.prototype]: as
    keys they are outside what [Obj.get] and [Obj.set] describe. *)
Definition inherited : list string :=
  ["constructor"; "hasOwnProperty"; "isPrototypeOf";
   "propertyIsEnumerable"; "toLocaleString"; "toString"; "valueOf";
   "__proto__"; "__defineGetter__"; "__defineSetter__";
   "__lookupGetter__"; "__lookupSetter__"]%string.

Definition ordinary (k : string) : Prop := ~ In k inherited.

(** * Properties *)

Local Open Scope Q_scope.

(** ** Numbers *)

Lemma Qltb_lt (a b : Q) : JS.Qltb a b = true <-> a < b.
Proof.
  unfold JS.Qltb. rewrite negb_true_iff.
  destruct (Qle_bool b a) eqn:E.
  - apply Qle_bool_iff in E. split; [discriminate | intros H; lra].
  - split; [intros _ | reflexivity].
    destruct (Qlt_le_dec a b) as [H | H]; [exact H |].
    apply Qle_bool_iff in H. congruence.
Qed.

Lemma Qltb_ge (a b : Q) : JS.Qltb a b = false <-> b <= a.
Proof.
  split.
  - intros E. destruct (Qlt_le_dec a b) as [H | H]; [| exact H].
    apply Qltb_lt in H. congruence.
  - intros H. destruct (JS.Qltb a b) eqn:E; [| reflexivity].
    apply Qltb_lt in E. lra.
Qed.

Lemma isFinite_inv (x : JS.number) :
  JS.isFinite x = true -> exists q, x = JS.Fin q.
Proof. destruct x; try discriminate. eauto. Qed.

(** ** Dictionaries *)

Section ObjFacts.
Context {V : Type}.
Implicit Types (o : Obj.t V) (k : string) (v : V).

Lemma get_set_eq o k v : Obj.get (Obj.set o k v) k = Some v.
Proof.
  induction o as [| [k' v'] o IH]; simpl.
  - now rewrite String.eqb_refl.
  - destruct (String.eqb k k') eqn:E; simpl; rewrite E; auto.
Qed.

Lemma get_set_ne o k k' v :
  k <> k' -> Obj.get (Obj.set o k v) k' = Obj.get o k'.
Proof.
  intros Hne. induction o as [| [k1 v1] o IH]; simpl.
  - destruct (String.eqb k' k) eqn:E; [| reflexivity].
    apply String.eqb_eq in E. congruence.
  - destruct (String.eqb k k1) eqn:E; simpl.
    + apply String.eqb_eq in E. subst k1.
      destruct (String.eqb k' k) eqn:E'; [| reflexivity].
      apply String.eqb_eq in E'. congruence.
    + now rewrite IH.
Qed.

Lemma get_None_keys o k : Obj.get o k = None <-> ~ In k (Obj.keys o).
Proof.
  induction o as [| [k' v'] o IH]; simpl.
  - tauto.
  - destruct (String.eqb k k') eqn:E.
    + apply String.eqb_eq in E. subst. split; [discriminate | tauto].
    + apply String.eqb_neq in E. rewrite IH. split.
      * intros H [H' | H']; [congruence | tauto].
      * tauto.
Qed.

Lemma get_Some_keys o k v : Obj.get o k = Some v -> In k (Obj.keys o).
Proof.
  intros H. destruct (in_dec string_dec k (Obj.keys o)) as [Hin | Hin];
    [exact Hin |].
  apply get_None_keys in Hin. congruence.
Qed.

Lemma keys_get o k : In k (Obj.keys o) -> exists v, Obj.get o k = Some v.
Proof.
  intros H. destruct (Obj.get o k) eqn:E; [eauto |].
  apply get_None_keys in E. tauto.
Qed.

Lemma get_Some_In o k v : Obj.get o k = Some v -> In (k, v) o.
Proof.
  induction o as [| [k' v'] o IH]; simpl; [discriminate |].
  destruct (String.eqb k k') eqn:E.
  - apply String.eqb_eq in E. intros [= ->]. subst. now left.
  - auto.
Qed.

Lemma In_get o k v : Obj.wf o -> In (k, v) o -> Obj.get o k = Some v.
Proof.
  unfold Obj.wf. induction o as [| [k' v'] o IH]; simpl; [tauto |].
  intros Hnd [Heq | Hin].
  - injection Heq as -> ->. now rewrite String.eqb_refl.
  - apply NoDup_cons in Hnd as [Hk Ho].
    destruct (String.eqb k k') eqn:E; [| auto].
    apply String.eqb_eq in E. subst k'. exfalso. apply Hk.
    apply list_elem_of_In. apply (in_map fst) in Hin. exact Hin.
Qed.

Lemma keys_set_present o k v :
  In k (Obj.keys o) -> Obj.keys (Obj.set o k v) = Obj.keys o.
Proof.
  induction o as [| [k' v'] o IH]; simpl; [tauto |].
  intros H. destruct (String.eqb k k') eqn:E; simpl; [reflexivity |].
  apply String.eqb_neq in E. f_equal. apply IH.
  destruct H; [congruence | assumption].
Qed.

Lemma keys_set_absent o k v :
  ~ In k (Obj.keys o) -> Obj.keys (Obj.set o k v) = Obj.keys o ++ [k].
Proof.
  induction o as [| [k' v'] o IH]; simpl; [reflexivity |].
  intros H. destruct (String.eqb k k') eqn:E; simpl.
  - apply String.eqb_eq in E. subst. tauto.
  - f_equal. apply IH. tauto.
Qed.

Lemma keys_update o k f : Obj.keys (Obj.update o k f) = Obj.keys o.
Proof.
  unfold Obj.update. destruct (Obj.get o k) eqn:E; [| reflexivity].
  apply keys_set_present. eapply get_Some_keys; eauto.
Qed.

Lemma get_update_eq o k f :
  Obj.get (Obj.update o k f) k = f <$> Obj.get o k.
Proof.
  unfold Obj.update. destruct (Obj.get o k) eqn:E; simpl.
  - apply get_set_eq.
  - now rewrite E.
Qed.

Lemma get_update_ne o k k' f :
  k <> k' -> Obj.get (Obj.update o k f) k' = Obj.get o k'.
Proof.
  intros H. unfold Obj.update. destruct (Obj.get o k); [| reflexivity].
  now apply get_set_ne.
Qed.

End ObjFacts.

(** ** Finite dictionaries and their totals *)

Lemma finite_get (o : Obj.t JS.number) k v :
  finite o -> Obj.get o k = Some v -> exists q, v = JS.Fin q.
Proof.
  intros Hf Hg. apply get_Some_In in Hg. unfold finite in Hf.
  rewrite Forall_forall in Hf. apply list_elem_of_In in Hg.
  apply Hf in Hg. now apply isFinite_inv.
Qed.

Lemma finite_set (o : Obj.t JS.number) k v :
  finite o -> JS.isFinite v = true -> finite (Obj.set o k v).
Proof.
  unfold finite. intros Hf Hv.
  induction o as [| [k' v'] o IH]; simpl.
  - repeat constructor. exact Hv.
  - apply Forall_cons in Hf as [H1 H2].
    destruct (String.eqb k k'); constructor; auto.
Qed.

Lemma finite_update (o : Obj.t JS.number) k f :
  finite o -> (forall q, JS.isFinite (f (JS.Fin q)) = true) ->
  finite (Obj.update o k f).
Proof.
  intros Hf Hq. unfold Obj.update. destruct (Obj.get o k) eqn:E; [| exact Hf].
  destruct (finite_get _ _ _ Hf E) as [q ->]. now apply finite_set.
Qed.

Lemma total_set (o : Obj.t JS.number) k old v :
  Obj.get o k = Some old ->
  total (Obj.set o k v) == total o - JS.toQ old + JS.toQ v.
Proof.
  induction o as [| [k' v'] o IH]; simpl; [discriminate |].
  destruct (String.eqb k k') eqn:E; simpl.
  - intros [= ->]. lra.
  - intros H. rewrite (IH H). lra.
Qed.

Lemma sumValues_from (l : list (string * JS.number)) (a : Q) :
  finite l ->
  exists s, fold_left JS.add (Obj.values l) (JS.Fin a) = JS.Fin s /\
            s == a + total l.
Proof.
  revert a. induction l as [| [k v] l IH]; intros a Hf; simpl.
  - exists a. split; [reflexivity | lra].
  - apply Forall_cons in Hf as [Hv Hl]. simpl in Hv.
    apply isFinite_inv in Hv as [q ->]. simpl.
    destruct (IH (a + q) Hl) as (s & Hs & Heq).
    exists s. split; [exact Hs | lra].
Qed.

Lemma sumValues_total (o : Obj.t JS.number) :
  finite o -> exists s, sumValues o = JS.Fin s /\ s == total o.
Proof.
  intros Hf. destruct (sumValues_from o 0 Hf) as (s & Hs & Heq).
  exists s. split; [exact Hs | lra].
Qed.

(** ** The seeded map *)

Lemma balancesInit_gen (ms : list string) (o : Obj.t JS.number) :
  let r := fold_left (fun b m => Obj.set b m JS.zero) ms o in
  (forall k, In k (Obj.keys r) <-> In k (Obj.keys o) \/ In k ms) /\
  (finite o -> finite r) /\
  (total o == 0 -> (forall k v, Obj.get o k = Some v -> v = JS.zero) ->
   total r == 0 /\ forall k v, Obj.get r k = Some v -> v = JS.zero).
Proof.
  revert o. induction ms as [| m ms IH]; intros o; simpl.
  - repeat split; try tauto.
  - specialize (IH (Obj.set o m JS.zero)). simpl in IH.
    destruct IH as (IHk & IHf & IHz).
    assert (Hkeys : forall k, In k (Obj.keys (Obj.set o m JS.zero)) <->
                              In k (Obj.keys o) \/ m = k).
    { intros k. destruct (in_dec string_dec m (Obj.keys o)) as [Hin | Hin].
      - rewrite keys_set_present by exact Hin. split; [tauto |].
        intros [H | <-]; assumption.
      - rewrite keys_set_absent by exact Hin. rewrite in_app_iff. simpl.
        tauto. }
    split; [| split].
    + intros k. rewrite IHk, Hkeys. tauto.
    + intros Hf. apply IHf. now apply finite_set.
    + intros Ht Hz. apply IHz.
      * destruct (Obj.get o m) eqn:E.
        -- rewrite (total_set _ _ _ _ E). rewrite (Hz _ _ E). simpl. lra.
        -- clear - Ht E. induction o as [| [k' v'] o IH]; simpl in *; [lra |].
           destruct (String.eqb m k'); [discriminate |]. simpl.
           assert (total o == total (Obj.set o m JS.zero)) as <-; [| lra].
           clear - E. induction o as [| [k1 v1] o IH]; simpl in *; [lra |].
           destruct (String.eqb m k1); [discriminate |]. simpl.
           rewrite <- (IH E). reflexivity.
      * intros k v. destruct (string_dec m k) as [<- | Hne].
        -- rewrite get_set_eq. now intros [= <-].
        -- rewrite get_set_ne by exact Hne. apply Hz.
Qed.

Lemma balancesInit_keys ms k :
  In k (Obj.keys (Analytics.balancesInit ms)) <-> In k ms.
Proof.
  destruct (balancesInit_gen ms []) as (H & _). rewrite (H k). simpl. tauto.
Qed.

Lemma balancesInit_finite ms : finite (Analytics.balancesInit ms).
Proof.
  destruct (balancesInit_gen ms []) as (_ & H & _). apply H. constructor.
Qed.

Lemma balancesInit_total ms : total (Analytics.balancesInit ms) == 0.
Proof.
  destruct (balancesInit_gen ms []) as (_ & _ & H).
  apply H; [reflexivity | discriminate].
Qed.

Lemma balancesInit_get ms k :
  In k ms -> Obj.get (Analytics.balancesInit ms) k = Some JS.zero.
Proof.
  intros Hin. apply balancesInit_keys in Hin. apply keys_get in Hin as [v Hv].
  destruct (balancesInit_gen ms []) as (_ & _ & H).
  destruct H as [_ H]; [reflexivity | discriminate |].
  now rewrite Hv, (H _ _ Hv).
Qed.

(** ** One expense in [routes/analytics.js] *)

Lemma debit_update b m x :
  Analytics.debit b m x = Obj.update b m (fun v => JS.sub v x).
Proof.
  unfold Analytics.debit, Obj.hasOwnProperty, Obj.update.
  now destruct (Obj.get b m).
Qed.

Lemma credit_update b m x :
  Analytics.credit b m x = Obj.update b m (fun v => JS.add v x).
Proof.
  unfold Analytics.credit, Obj.hasOwnProperty, Obj.update.
  now destruct (Obj.get b m).
Qed.

Lemma fold_left_map_fuse {A B C} (f : A -> C -> A) (g : B -> C) l a :
  fold_left f (map g l) a = fold_left (fun a x => f a (g x)) l a.
Proof. revert a. induction l; simpl; auto. Qed.

Lemma fold_left_pointwise {A B} (f g : A -> B -> A) l a :
  (forall a x, f a x = g a x) -> fold_left f l a = fold_left g l a.
Proof. intros H. revert a. induction l; simpl; intros; [| rewrite H]; auto. Qed.

Lemma inject_nat_nonzero (n : nat) :
  n <> O -> Qeq_bool (inject_Z (Z.of_nat n)) 0 = false.
Proof.
  intros Hn. destruct (Qeq_bool _ _) eqn:E; [| reflexivity].
  apply Qeq_bool_iff in E. unfold Qeq in E. simpl in E. lia.
Qed.

Lemma sharePerPerson_nonempty (e : Schema.Expense) :
  Schema.splitAmong e <> [] ->
  Analytics.sharePerPerson e = JS.Fin (equalShare e).
Proof.
  intros Hne. unfold Analytics.sharePerPerson, equalShare, JS.ofNat. simpl.
  rewrite inject_nat_nonzero; [reflexivity |].
  destruct (Schema.splitAmong e); [congruence | discriminate].
Qed.

Lemma applyExpense_charges b e :
  Analytics.applyExpense b e =
  Analytics.credit (debitAll b (charges e)) (Schema.paidBy e)
                   (JS.Fin (Schema.amount e)).
Proof.
  unfold Analytics.applyExpense, charges, debitAll.
  destruct (Analytics.usesCustom e) as [custom |].
  - f_equal. apply fold_left_pointwise. now intros ? [].
  - f_equal. rewrite fold_left_map_fuse. simpl.
    destruct (Schema.splitAmong e) as [| m l] eqn:E; [reflexivity |].
    rewrite <- E, sharePerPerson_nonempty; [reflexivity | congruence].
Qed.

Lemma debitAll_keys l b : Obj.keys (debitAll b l) = Obj.keys b.
Proof.
  revert b. induction l as [| p l IH]; intros b; simpl; [reflexivity |].
  unfold debitAll in *. simpl. rewrite IH, debit_update. apply keys_update.
Qed.

Lemma debitAll_finite l b : finite b -> finite (debitAll b l).
Proof.
  revert b. induction l as [| p l IH]; intros b Hf; simpl; [exact Hf |].
  unfold debitAll in *. simpl. apply IH. rewrite debit_update.
  now apply finite_update.
Qed.

Lemma debitAll_get_None l b k :
  Obj.get b k = None -> Obj.get (debitAll b l) k = None.
Proof.
  intros H. apply get_None_keys. rewrite debitAll_keys.
  now apply get_None_keys.
Qed.

Lemma debitAll_get l b k q :
  finite b -> Obj.get b k = Some (JS.Fin q) ->
  exists q', Obj.get (debitAll b l) k = Some (JS.Fin q') /\
             q' == q - chargedTo l k.
Proof.
  revert b q. induction l as [| [m a] l IH]; intros b q Hf Hg.
  - exists q. split; [exact Hg | unfold chargedTo; simpl; lra].
  - unfold debitAll in *. simpl fold_left. rewrite debit_update.
    assert (Hf' : finite (Obj.update b m (fun v => JS.sub v (JS.Fin a))))
      by now apply finite_update.
    unfold chargedTo. simpl map. simpl Qsum.
    destruct (String.eqb m k) eqn:E.
    + apply String.eqb_eq in E. subst m.
      destruct (IH _ (q - a) Hf') as (q' & Hq' & Heq).
      { rewrite get_update_eq, Hg. simpl. reflexivity. }
      exists q'. split; [exact Hq' |]. unfold chargedTo in Heq. lra.
    + apply String.eqb_neq in E.
      destruct (IH _ q Hf') as (q' & Hq' & Heq).
      { now rewrite get_update_ne. }
      exists q'. split; [exact Hq' |]. unfold chargedTo in Heq. lra.
Qed.


Lemma applyExpense_keys b e :
  Obj.keys (Analytics.applyExpense b e) = Obj.keys b.
Proof.
  rewrite applyExpense_charges, credit_update, keys_update.
  apply debitAll_keys.
Qed.

Lemma applyExpense_finite b e :
  finite b -> finite (Analytics.applyExpense b e).
Proof.
  intros Hf. rewrite applyExpense_charges, credit_update.
  apply finite_update; [now apply debitAll_finite | reflexivity].
Qed.


Lemma applyExpense_get b e k q :
  finite b -> Obj.get b k = Some (JS.Fin q) ->
  exists q', Obj.get (Analytics.applyExpense b e) k = Some (JS.Fin q') /\
             q' == q - chargedTo (charges e) k + paid e k.
Proof.
  intros Hf Hg. rewrite applyExpense_charges, credit_update.
  destruct (debitAll_get (charges e) b k q Hf Hg) as (q1 & Hq1 & Heq).
  unfold paid. destruct (String.eqb (Schema.paidBy e) k) eqn:E.
  - apply String.eqb_eq in E. subst k. rewrite get_update_eq, Hq1. simpl.
    eexists. split; [reflexivity | lra].
  - apply String.eqb_neq in E. rewrite get_update_ne by exact E.
    exists q1. split; [exact Hq1 | lra].
Qed.


(** ** The whole run of [calculateBalances] *)

Lemma calculateBalances_keys es ms :
  Obj.keys (Analytics.calculateBalances es ms) =
  Obj.keys (Analytics.balancesInit ms).
Proof.
  unfold Analytics.calculateBalances. generalize (Analytics.balancesInit ms).
  induction es as [| e es IH]; intros b; simpl; [reflexivity |].
  rewrite IH. apply applyExpense_keys.
Qed.


Lemma calculateBalances_get_None es ms k :
  ~ In k ms -> Obj.get (Analytics.calculateBalances es ms) k = None.
Proof.
  intros H. apply get_None_keys.
  now rewrite calculateBalances_keys, balancesInit_keys.
Qed.

Lemma fold_applyExpense_get es b k q :
  finite b -> Obj.get b k = Some (JS.Fin q) ->
  exists q', Obj.get (fold_left Analytics.applyExpense es b) k
             = Some (JS.Fin q') /\ q' == q + analyticsNet es k.
Proof.
  revert b q. induction es as [| e es IH]; intros b q Hf Hg; simpl.
  - exists q. split; [exact Hg | unfold analyticsNet; simpl; lra].
  - destruct (applyExpense_get b e k q Hf Hg) as (q1 & Hq1 & Heq1).
    destruct (IH _ q1 (applyExpense_finite b e Hf) Hq1) as (q2 & Hq2 & Heq2).
    exists q2. split; [exact Hq2 |].
    unfold analyticsNet in *. simpl. lra.
Qed.

Lemma calculateBalances_get es ms k :
  In k ms ->
  exists q, Obj.get (Analytics.calculateBalances es ms) k = Some (JS.Fin q) /\
            q == analyticsNet es k.
Proof.
  intros Hin. unfold Analytics.calculateBalances.
  destruct (fold_applyExpense_get es (Analytics.balancesInit ms) k 0)
    as (q & Hq & Heq).
  - apply balancesInit_finite.
  - now apply balancesInit_get.
  - exists q. split; [exact Hq | lra].
Qed.

(** ** One expense in [server.js] *)

Lemma orZero_get (b : Obj.t JS.number) k :
  finite b ->
  exists q, JS.orZero (Obj.get b k) = JS.Fin q /\ q == balanceOf b k.
Proof.
  intros Hf. unfold balanceOf. destruct (Obj.get b k) as [v |] eqn:E; simpl.
  - destruct (finite_get _ _ _ Hf E) as [q ->]. simpl.
    destruct (Qeq_bool q 0) eqn:Eq; simpl.
    + apply Qeq_bool_iff in Eq. exists 0. split; [reflexivity | lra].
    + exists q. split; reflexivity.
  - exists 0. split; reflexivity.
Qed.

Lemma balanceOf_set_eq b k q : balanceOf (Obj.set b k (JS.Fin q)) k = q.
Proof. unfold balanceOf. now rewrite get_set_eq. Qed.

Lemma balanceOf_set_ne b k k' v :
  k <> k' -> balanceOf (Obj.set b k v) k' = balanceOf b k'.
Proof. intros H. unfold balanceOf. now rewrite get_set_ne. Qed.

Lemma keys_set_iff {V} (o : Obj.t V) k v k' :
  In k' (Obj.keys (Obj.set o k v)) <-> In k' (Obj.keys o) \/ k = k'.
Proof.
  destruct (in_dec string_dec k (Obj.keys o)) as [Hin | Hin].
  - rewrite keys_set_present by exact Hin. split; [tauto |].
    intros [H | <-]; assumption.
  - rewrite keys_set_absent by exact Hin. rewrite in_app_iff. simpl. tauto.
Qed.

Lemma bump_spec b k a :
  finite b ->
  finite (Server.bump b k (JS.Fin a)) /\
  (forall k', In k' (Obj.keys (Server.bump b k (JS.Fin a))) <->
              In k' (Obj.keys b) \/ k = k') /\
  (forall k', balanceOf (Server.bump b k (JS.Fin a)) k' ==
              balanceOf b k' + (if String.eqb k k' then a else 0)).
Proof.
  intros Hf. unfold Server.bump.
  destruct (orZero_get b k Hf) as (q & -> & Hq). simpl.
  split; [| split].
  - now apply finite_set.
  - intros k'. apply keys_set_iff.
  - intros k'. destruct (String.eqb k k') eqn:E.
    + apply String.eqb_eq in E. subst k'. rewrite balanceOf_set_eq. lra.
    + apply String.eqb_neq in E. rewrite balanceOf_set_ne by exact E. lra.
Qed.

Lemma drop_spec b k a :
  finite b ->
  finite (Server.drop b k (JS.Fin a)) /\
  (forall k', In k' (Obj.keys (Server.drop b k (JS.Fin a))) <->
              In k' (Obj.keys b) \/ k = k') /\
  (forall k', balanceOf (Server.drop b k (JS.Fin a)) k' ==
              balanceOf b k' - (if String.eqb k k' then a else 0)).
Proof.
  intros Hf. unfold Server.drop.
  destruct (orZero_get b k Hf) as (q & -> & Hq). simpl.
  split; [| split].
  - now apply finite_set.
  - intros k'. apply keys_set_iff.
  - intros k'. destruct (String.eqb k k') eqn:E.
    + apply String.eqb_eq in E. subst k'. rewrite balanceOf_set_eq. lra.
    + apply String.eqb_neq in E. rewrite balanceOf_set_ne by exact E. lra.
Qed.

Lemma dropAll_spec l b :
  finite b ->
  finite (dropAll b l) /\
  (forall k, In k (Obj.keys (dropAll b l)) <->
             In k (Obj.keys b) \/ In k (map fst l)) /\
  (forall k, balanceOf (dropAll b l) k == balanceOf b k - chargedTo l k).
Proof.
  revert b. induction l as [| [m a] l IH]; intros b Hf.
  - simpl. split; [exact Hf |]. split; [simpl; tauto |].
    intros k. unfold chargedTo. simpl. lra.
  - unfold dropAll in *. simpl fold_left.
    destruct (drop_spec b m a Hf) as (Hf1 & Hk1 & Hb1).
    destruct (IH _ Hf1) as (Hf2 & Hk2 & Hb2).
    split; [exact Hf2 |]. split.
    + intros k. rewrite Hk2, Hk1. simpl. tauto.
    + intros k. rewrite Hb2, Hb1. unfold chargedTo. simpl. lra.
Qed.

Lemma customShare_fin custom m :
  Server.customShare custom m = JS.Fin (JS.toQ (Server.customShare custom m)).
Proof.
  unfold Server.customShare. destruct (Obj.get custom m); simpl;
    [destruct (negb _) |]; reflexivity.
Qed.

Lemma splitAmount_nonempty (e : Schema.Expense) :
  Schema.splitAmong e <> [] -> Server.splitAmount e = JS.Fin (equalShare e).
Proof. apply sharePerPerson_nonempty. Qed.

Lemma server_applyExpense_charges b e :
  Server.applyExpense b e =
  dropAll (Server.bump b (Schema.paidBy e) (JS.Fin (Schema.amount e)))
          (serverCharges e).
Proof.
  unfold Server.applyExpense, serverCharges, dropAll.
  destruct (Analytics.usesCustom e) as [custom |].
  - rewrite fold_left_map_fuse. simpl. apply fold_left_pointwise.
    intros a x. now rewrite <- customShare_fin.
  - rewrite fold_left_map_fuse. simpl.
    destruct (Schema.splitAmong e) as [| m l] eqn:E; [reflexivity |].
    rewrite <- E, splitAmount_nonempty; [reflexivity | congruence].
Qed.

Lemma serverCharges_members e :
  map fst (serverCharges e) = Schema.splitAmong e.
Proof.
  unfold serverCharges. destruct (Analytics.usesCustom e);
    rewrite map_map; simpl; apply map_id.
Qed.

Lemma server_applyExpense_spec b e :
  finite b ->
  finite (Server.applyExpense b e) /\
  (forall k, In k (Obj.keys (Server.applyExpense b e)) <->
             In k (Obj.keys b) \/ Schema.paidBy e = k \/
             In k (Schema.splitAmong e)) /\
  (forall k, balanceOf (Server.applyExpense b e) k ==
             balanceOf b k + (paid e k - chargedTo (serverCharges e) k)).
Proof.
  intros Hf. rewrite server_applyExpense_charges.
  destruct (bump_spec b (Schema.paidBy e) (Schema.amount e) Hf)
    as (Hf1 & Hk1 & Hb1).
  destruct (dropAll_spec (serverCharges e) _ Hf1) as (Hf2 & Hk2 & Hb2).
  split; [exact Hf2 |]. split.
  - intros k. rewrite Hk2, Hk1, serverCharges_members. tauto.
  - intros k. rewrite Hb2, Hb1. unfold paid. lra.
Qed.

Lemma fold_server_applyExpense es b :
  finite b ->
  finite (fold_left Server.applyExpense es b) /\
  (forall k, In k (Obj.keys (fold_left Server.applyExpense es b)) <->
             In k (Obj.keys b) \/
             exists e, In e es /\
                       (Schema.paidBy e = k \/ In k (Schema.splitAmong e))) /\
  (forall k, balanceOf (fold_left Server.applyExpense es b) k ==
             balanceOf b k + serverNet es k).
Proof.
  revert b. induction es as [| e es IH]; intros b Hf; simpl.
  - split; [exact Hf |]. split.
    + intros k. split; [tauto | intros [H | (e & [] & _)]; exact H].
    + intros k. unfold serverNet. simpl. lra.
  - destruct (server_applyExpense_spec b e Hf) as (Hf1 & Hk1 & Hb1).
    destruct (IH _ Hf1) as (Hf2 & Hk2 & Hb2).
    split; [exact Hf2 |]. split.
    + intros k. rewrite Hk2, Hk1. split.
      * intros [[H | H] | (e' & He' & H)]; eauto 6.
      * intros [H | (e' & [<- | He'] & H)]; eauto 6.
    + intros k. rewrite Hb2, Hb1. unfold serverNet. simpl. lra.
Qed.

Lemma groupBalances_finite es ms : finite (Server.groupBalances es ms).
Proof. apply fold_server_applyExpense, balancesInit_finite. Qed.


(** ** Shares *)



Lemma Qsum_const {A} (l : list A) (c : Q) :
  Qsum (map (fun _ => c) l) == inject_Z (Z.of_nat (length l)) * c.
Proof.
  induction l as [| x l IH].
  - change (0 == 0 * c). ring.
  - change (Qsum (map (fun _ => c) (x :: l)))
      with (c + Qsum (map (fun _ => c) l)).
    rewrite IH. simpl length. rewrite Nat2Z.inj_succ. unfold Z.succ.
    rewrite inject_Z_plus. change (inject_Z 1) with 1. ring.
Qed.

Lemma equalShare_total (e : Schema.Expense) :
  Schema.splitAmong e <> [] ->
  inject_Z (Z.of_nat (length (Schema.splitAmong e))) * equalShare e
  == Schema.amount e.
Proof.
  intros Hne. unfold equalShare. field. intros H.
  destruct (Schema.splitAmong e) as [| m l]; [congruence |].
  unfold Qeq in H. simpl in H. lia.
Qed.



(** ** Zero sum *)





(** ** An equal split among nobody *)

Lemma usesCustom_None_charges e :
  Analytics.usesCustom e = None -> Schema.splitAmong e = [] ->
  charges e = [] /\ serverCharges e = [].
Proof.
  intros Hu He. unfold charges, serverCharges. rewrite Hu, He. auto.
Qed.

(** C4, as stated, fails: the creation endpoint accepts an equal split
    with an empty splitAmong (an empty array is not a missing field), and
    calculateBalances divides the amount by zero for the stored record
    and credits its payer. *)
Lemma empty_split_counterexample :
  (forall accepts updates now,
      Expenses.status
        (fst (Expenses.postExpense accepts updates now Scenario.db
                                   Scenario.soloRequest))
      <> 400%nat) /\
  fst (Expenses.postExpense (fun _ => true) (fun _ => true) 1 Scenario.db
                            Scenario.soloRequest)
  = Expenses.mkResponse 201 "" (Some Scenario.solo) /\
  Analytics.sharePerPerson Scenario.solo = JS.PInf /\
  Obj.get (Analytics.calculateBalances [Scenario.solo] ["A"%string])
          "A"%string = Some (JS.Fin (0 + 10)).
Proof.
  split; [| split; [| split]].
  - intros accepts updates now. unfold Expenses.postExpense. simpl.
    unfold Expenses.create. destruct (accepts _); [| simpl; discriminate].
    destruct (updates _); simpl; discriminate.
  - reflexivity.
  - reflexivity.
  - reflexivity.
Qed.

Lemma not_custom (sm : option string) :
  sm <> Some "custom"%string ->
  match sm with
  | Some m => String.eqb m "custom"
  | None => false
  end = false.
Proof.
  destruct sm as [m |]; [| reflexivity]. intros H.
  apply String.eqb_neq. congruence.
Qed.

(** C4 (amended): an expense record that takes the equal-split branch
    with a zero-length splitAmong is rejected nowhere.  The creation
    endpoint answers neither 400 nor 404 to a request that has the
    required fields, a group of the requester, an empty splitAmong and a
    split method other than custom: it hands to Expense.create a
    document with an empty splitAmong and no custom amounts, which is
    stored as soon as Expense.create accepts it.  calculateBalances and
    calculateGroupAnalytics compute amount / 0 for such a record, a
    quotient that is not finite, but use it for nobody: all the record
    does to the balance map is balances[paidBy] += amount (in
    calculateBalances, when paidBy is a key), every other entry is as it
    was. *)
Theorem empty_split_harmless
        (accepts : Schema.Expense -> bool) (updates : string -> bool)
        (now : nat) (db : Expenses.database) (req : Expenses.request)
        (gid t p d : string) (a : Q) (g : Schema.Group)
        (e : Schema.Expense) (b : Obj.t JS.number) :
  Expenses.truthyString (Expenses.groupId req) = Some gid ->
  Expenses.truthyString (Expenses.title req) = Some t ->
  Expenses.truthyNumber (Expenses.amount req) = Some a ->
  Expenses.truthyString (Expenses.paidBy req) = Some p ->
  Expenses.truthyString (Expenses.date req) = Some d ->
  Expenses.splitAmong req = Some [] ->
  Expenses.splitMethod req <> Some "custom"%string ->
  Expenses.findGroup db gid (Expenses.userId req) = Some g ->
  Analytics.usesCustom e = None -> Schema.splitAmong e = [] ->
  let r := Expenses.postExpense accepts updates now db req in
  (Expenses.status (fst r) = 201%nat \/ Expenses.status (fst r) = 500%nat) /\
  (exists doc,
      Schema.splitAmong doc = [] /\ Analytics.usesCustom doc = None /\
      Schema.amount doc = a /\ Schema.paidBy doc = p /\
      (accepts doc = true ->
       Expenses.expenses (snd r) = Expenses.expenses db ++ [doc]) /\
      (accepts doc = true -> updates gid = true ->
       fst r = Expenses.mkResponse 201 "" (Some doc))) /\
  JS.isFinite (Analytics.sharePerPerson e) = false /\
  Analytics.applyExpense b e =
    Analytics.credit b (Schema.paidBy e) (JS.Fin (Schema.amount e)) /\
  Server.applyExpense b e =
    Server.bump b (Schema.paidBy e) (JS.Fin (Schema.amount e)) /\
  (forall k, k <> Schema.paidBy e ->
             Obj.get (Analytics.applyExpense b e) k = Obj.get b k /\
             Obj.get (Server.applyExpense b e) k = Obj.get b k).
Proof.
  intros Hg Ht Ha Hp Hd Hsa Hsm Hgrp Hu He r.
  assert (HA : Analytics.applyExpense b e =
               Analytics.credit b (Schema.paidBy e)
                                (JS.Fin (Schema.amount e))).
  { unfold Analytics.applyExpense. now rewrite Hu, He. }
  assert (HS : Server.applyExpense b e =
               Server.bump b (Schema.paidBy e) (JS.Fin (Schema.amount e))).
  { unfold Server.applyExpense. now rewrite Hu, He. }
  split; [| split; [| split; [| split; [exact HA | split; [exact HS |]]]]].
  - subst r. unfold Expenses.postExpense.
    rewrite Hg, Ht, Ha, Hp, Hd, Hsa, Hgrp, (not_custom _ Hsm).
    unfold Expenses.create. cbv zeta.
    destruct (accepts _); [| right; reflexivity].
    destruct (updates gid); [left | right]; reflexivity.
  - subst r. unfold Expenses.postExpense.
    rewrite Hg, Ht, Ha, Hp, Hd, Hsa, Hgrp, (not_custom _ Hsm).
    unfold Expenses.create. cbv zeta.
    match goal with |- context [accepts ?doc] => exists doc end.
    split; [reflexivity |]. split.
    { unfold Analytics.usesCustom, Expenses.document.
      cbn [Schema.splitMethod Schema.customAmounts].
      rewrite (not_custom _ Hsm). now destruct (String.eqb _ "custom"). }
    split; [reflexivity |]. split; [reflexivity |]. split.
    + intros ->. now destruct (updates gid).
    + now intros -> ->.
  - unfold Analytics.sharePerPerson. rewrite He. simpl.
    destruct (JS.Qltb 0 (Schema.amount e)); [reflexivity |].
    destruct (JS.Qltb (Schema.amount e) 0); reflexivity.
  - intros k Hk. rewrite HA, HS, credit_update. split.
    + now apply get_update_ne.
    + unfold Server.bump. now apply get_set_ne.
Qed.

Lemma empty_split_harmless_witness :
  (Expenses.truthyString (Expenses.groupId Scenario.soloRequest)
   = Some "g1"%string /\
   Expenses.truthyString (Expenses.title Scenario.soloRequest)
   = Some "Taxi"%string /\
   Expenses.truthyNumber (Expenses.amount Scenario.soloRequest)
   = Some 10 /\
   Expenses.truthyString (Expenses.paidBy Scenario.soloRequest)
   = Some "A"%string /\
   Expenses.truthyString (Expenses.date Scenario.soloRequest)
   = Some "2024-01-03"%string /\
   Expenses.splitAmong Scenario.soloRequest = Some [] /\
   Expenses.splitMethod Scenario.soloRequest <> Some "custom"%string /\
   Expenses.findGroup Scenario.db "g1"
                      (Expenses.userId Scenario.soloRequest)
   = Some Scenario.roommates /\
   Analytics.usesCustom Scenario.solo = None /\
   Schema.splitAmong Scenario.solo = []) /\
  Expenses.postExpense (fun _ => true) (fun _ => true) 1 Scenario.db
                       Scenario.soloRequest
  = (Expenses.mkResponse 201 "" (Some Scenario.solo),
     Expenses.mkDatabase (Expenses.touch 1 "g1" [Scenario.roommates])
                         [Scenario.solo]) /\
  JS.isFinite (Analytics.sharePerPerson Scenario.solo) = false /\
  Analytics.applyExpense [("A"%string, JS.zero); ("B"%string, JS.zero)]
                         Scenario.solo
  = [("A"%string, JS.Fin (0 + 10)); ("B"%string, JS.zero)] /\
  Server.applyExpense [("A"%string, JS.zero); ("B"%string, JS.zero)]
                      Scenario.solo
  = [("A"%string, JS.Fin (0 + 10)); ("B"%string, JS.zero)].
Proof.
  assert (Hsm : Expenses.splitMethod Scenario.soloRequest
                <> Some "custom"%string) by discriminate.
  split; [repeat split; exact Hsm |].
  pose proof (empty_split_harmless
                (fun _ => true) (fun _ => true) 1 Scenario.db
                Scenario.soloRequest "g1" "Taxi" "A" "2024-01-03" 10
                Scenario.roommates Scenario.solo
                [("A"%string, JS.zero); ("B"%string, JS.zero)]
                eq_refl eq_refl eq_refl eq_refl eq_refl eq_refl Hsm eq_refl
                eq_refl eq_refl) as (_ & _ & H3 & H4 & H5 & _).
  split; [reflexivity |]. split; [exact H3 |].
  split; [rewrite H4 | rewrite H5]; reflexivity.
Defined.

(** ** Payers outside the group *)







(** ** Custom shares *)





(** ** Equal shares *)

Lemma charges_equal e :
  Analytics.usesCustom e = None ->
  charges e = map (fun m => (m, equalShare e)) (Schema.splitAmong e) /\
  serverCharges e = map (fun m => (m, equalShare e)) (Schema.splitAmong e).
Proof. intros H. unfold charges, serverCharges. now rewrite H. Qed.





(** ** The two arrays of the planner *)

Lemma debtor_not_creditor (e : string * JS.number) :
  isDebtor e = true -> isCreditor e = false.
Proof.
  destruct e as [p v]. unfold isDebtor, isCreditor, JS.gt. simpl.
  destruct v as [q | | |]; simpl; try discriminate; try reflexivity.
  intros H. apply Qltb_lt in H. apply Qltb_ge. lra.
Qed.

Lemma classify_spec acc p v :
  Server.classify acc (p, v) =
  (fst acc ++ (if isDebtor (p, v) then [Server.mkParty p (JS.neg v)] else []),
   snd acc ++ (if isCreditor (p, v) then [Server.mkParty p v] else [])).
Proof.
  destruct acc as [ds cs]. unfold Server.classify.
  change (JS.lt v (JS.Fin (-0.01))) with (isDebtor (p, v)).
  change (JS.gt v (JS.Fin 0.01)) with (isCreditor (p, v)).
  destruct (isDebtor (p, v)) eqn:E.
  - rewrite (debtor_not_creditor _ E). simpl. now rewrite app_nil_r.
  - destruct (isCreditor (p, v)); simpl; now rewrite !app_nil_r.
Qed.

Lemma fold_classify b ds cs :
  fold_left Server.classify b (ds, cs)
  = (ds ++ debtorsOf b, cs ++ creditorsOf b).
Proof.
  revert ds cs. induction b as [| [p v] b IH]; intros ds cs;
    cbn [fold_left debtorsOf creditorsOf].
  - now rewrite !app_nil_r.
  - rewrite classify_spec. simpl fst. simpl snd. rewrite IH.
    destruct (isDebtor (p, v)), (isCreditor (p, v)); simpl;
      rewrite <- ?app_assoc; simpl; rewrite ?app_nil_r; reflexivity.
Qed.

Lemma partition_spec b : Server.partition b = (debtorsOf b, creditorsOf b).
Proof. unfold Server.partition, Obj.entries. apply fold_classify. Qed.

Lemma initial_spec b :
  Server.initial b = Server.mkState (debtorsOf b) (creditorsOf b) 0 0 [].
Proof. unfold Server.initial. now rewrite partition_spec. Qed.

Lemma debtorsOf_length b :
  length (debtorsOf b) = length (List.filter isDebtor b).
Proof.
  induction b as [| [p v] b IH]; simpl; [reflexivity |].
  destruct (isDebtor (p, v)); simpl; now rewrite IH.
Qed.

Lemma creditorsOf_length b :
  length (creditorsOf b) = length (List.filter isCreditor b).
Proof.
  induction b as [| [p v] b IH]; simpl; [reflexivity |].
  destruct (isCreditor (p, v)); simpl; now rewrite IH.
Qed.

Lemma debtorsOf_finite b : finite b -> finiteParties (debtorsOf b).
Proof.
  unfold finite, finiteParties. induction b as [| [p v] b IH]; simpl.
  - constructor.
  - intros H. apply Forall_cons in H as [Hv Hb]. simpl in Hv.
    destruct (isDebtor (p, v)); [constructor |]; auto.
    simpl. now destruct v.
Qed.

Lemma creditorsOf_finite b : finite b -> finiteParties (creditorsOf b).
Proof.
  unfold finite, finiteParties. induction b as [| [p v] b IH]; simpl.
  - constructor.
  - intros H. apply Forall_cons in H as [Hv Hb]. simpl in Hv.
    destruct (isCreditor (p, v)); [constructor |]; auto.
Qed.

(** ** The loop of the planner *)

Lemma min_Fin a c :
  JS.min (JS.Fin a) (JS.Fin c) = JS.Fin (if JS.Qltb c a then c else a).
Proof. unfold JS.min. simpl. now destruct (JS.Qltb c a). Qed.

Lemma while_unfold fuel st :
  Server.while fuel st =
  match Server.debtors st !! Server.i st,
        Server.creditors st !! Server.j st with
  | Some d, Some c =>
      match fuel with
      | O => None
      | S fuel' => Server.while fuel' (Server.body st d c)
      end
  | _, _ => Some st
  end.
Proof. destruct fuel; reflexivity. Qed.

(** An invariant of the body holds when the loop ends, and the loop ends
    with one of the two cursors past its array. *)
Lemma while_invariant (P : Server.state -> Prop) :
  (forall st d c,
      P st -> Server.debtors st !! Server.i st = Some d ->
      Server.creditors st !! Server.j st = Some c ->
      P (Server.body st d c)) ->
  forall fuel st st',
    P st -> Server.while fuel st = Some st' ->
    P st' /\ (Server.debtors st' !! Server.i st' = None \/
              Server.creditors st' !! Server.j st' = None).
Proof.
  intros Hstep. induction fuel as [| fuel IH]; intros st st' HP Hw;
    rewrite while_unfold in Hw;
    destruct (Server.debtors st !! Server.i st) as [d |] eqn:Ed;
    try (injection Hw as <-; auto; fail);
    destruct (Server.creditors st !! Server.j st) as [c |] eqn:Ec;
    try (injection Hw as <-; auto; fail).
  - discriminate.
  - eapply IH; [| exact Hw]. now apply Hstep.
Qed.

Lemma while_fuel fuel fuel' st st' :
  Server.while fuel st = Some st' -> (fuel <= fuel')%nat ->
  Server.while fuel' st = Some st'.
Proof.
  revert fuel' st. induction fuel as [| fuel IH]; intros fuel' st Hw Hle;
    rewrite while_unfold in Hw; rewrite while_unfold;
    destruct (Server.debtors st !! Server.i st) as [d |]; try exact Hw;
    destruct (Server.creditors st !! Server.j st) as [c |]; try exact Hw.
  - discriminate.
  - destruct fuel' as [| fuel']; [lia |]. apply IH; [exact Hw | lia].
Qed.

Lemma finiteParties_lookup l x p :
  finiteParties l -> l !! x = Some p -> exists a, Server.amount p = JS.Fin a.
Proof.
  intros Hf Hl. unfold finiteParties in Hf. rewrite Forall_lookup in Hf.
  apply isFinite_inv. exact (Hf x p Hl).
Qed.

Lemma finiteParties_insert l x p :
  finiteParties l -> JS.isFinite (Server.amount p) = true ->
  finiteParties (<[x := p]> l).
Proof. intros Hf Hp. now apply Forall_insert. Qed.

(** One pass on finite amounts: the arrays keep their lengths and stay
    finite, a settlement is added, and a cursor moves. *)
Lemma body_finite st d c :
  finiteState st ->
  Server.debtors st !! Server.i st = Some d ->
  Server.creditors st !! Server.j st = Some c ->
  let st' := Server.body st d c in
  finiteState st' /\
  length (Server.debtors st') = length (Server.debtors st) /\
  length (Server.creditors st') = length (Server.creditors st) /\
  length (Server.settlements st') = S (length (Server.settlements st)) /\
  (Server.i st <= Server.i st' <= S (Server.i st))%nat /\
  (Server.j st <= Server.j st' <= S (Server.j st))%nat /\
  (S (Server.i st + Server.j st) <= Server.i st' + Server.j st')%nat.
Proof.
  intros [Hfd Hfc] Hd Hc.
  destruct (finiteParties_lookup _ _ _ Hfd Hd) as [a Ha].
  destruct (finiteParties_lookup _ _ _ Hfc Hc) as [a' Ha'].
  unfold Server.body. rewrite Ha, Ha', min_Fin. simpl.
  rewrite !length_insert, length_app. simpl.
  split; [split; apply finiteParties_insert; auto |].
  split; [reflexivity |]. split; [reflexivity |]. split; [lia |].
  destruct (JS.Qltb a' a) eqn:E.
  - assert (JS.Qltb (a' + - a') 0.01 = true) as ->
        by (apply Qltb_lt; lra).
    destruct (JS.Qltb (a + - a') 0.01); lia.
  - assert (JS.Qltb (a + - a) 0.01 = true) as ->
        by (apply Qltb_lt; lra).
    destruct (JS.Qltb (a' + - a) 0.01); lia.
Qed.

Lemma while_terminates fuel st :
  finiteState st -> (remaining st <= fuel)%nat ->
  exists st', Server.while fuel st = Some st'.
Proof.
  revert st. induction fuel as [| fuel IH]; intros st Hf Hr;
    rewrite while_unfold;
    destruct (Server.debtors st !! Server.i st) as [d |] eqn:Ed; eauto;
    destruct (Server.creditors st !! Server.j st) as [c |] eqn:Ec; eauto.
  - apply lookup_lt_Some in Ed, Ec. unfold remaining in Hr. lia.
  - destruct (body_finite st d c Hf Ed Ec)
      as (Hf' & Hld & Hlc & _ & Hi & Hj & Hij).
    apply IH; [exact Hf' |].
    apply lookup_lt_Some in Ed, Ec. unfold remaining in *.
    rewrite Hld, Hlc. lia.
Qed.

(** ** Number of transfers *)

Lemma initial_finite b : finite b -> finiteState (Server.initial b).
Proof.
  intros Hf. rewrite initial_spec. split; simpl.
  - now apply debtorsOf_finite.
  - now apply creditorsOf_finite.
Qed.

(** C3: for every balance map (of finite numbers) the settlement planner
    terminates, and the list it returns contains at most
    |debtors| + |creditors| - 1 transfers, the debtors being the members
    with balance < -0.01 and the creditors the members with balance >
    0.01; as many passes as there are debtors and creditors are enough
    fuel, and more fuel gives the same list. *)
Theorem settlements_bounded (b : Obj.t JS.number) :
  finite b ->
  let n := length (List.filter isDebtor b) in
  let m := length (List.filter isCreditor b) in
  exists l, Server.calculateSettlements b = Some l /\
            (forall fuel, (n + m <= fuel)%nat ->
                          Server.settle fuel b = Some l) /\
            (length l <= n + m - 1)%nat.
Proof.
  intros Hf n m.
  assert (Hn : length (Server.debtors (Server.initial b)) = n).
  { rewrite initial_spec. simpl. apply debtorsOf_length. }
  assert (Hm : length (Server.creditors (Server.initial b)) = m).
  { rewrite initial_spec. simpl. apply creditorsOf_length. }
  assert (Hi : Server.i (Server.initial b) = O /\
               Server.j (Server.initial b) = O /\
               Server.settlements (Server.initial b) = []).
  { rewrite initial_spec. auto. }
  destruct Hi as (Hi & Hj & Hs).
  destruct (while_terminates (n + m) (Server.initial b)) as [st' Hw].
  { now apply initial_finite. }
  { unfold remaining. rewrite Hn, Hm. lia. }
  exists (Server.settlements st'). split; [| split].
  - unfold Server.calculateSettlements, Server.settle.
    rewrite Hn, Hm, Hw. reflexivity.
  - intros fuel Hle. unfold Server.settle.
    now rewrite (while_fuel _ _ _ _ Hw Hle).
  - pose (P := fun st =>
        finiteState st /\
        length (Server.debtors st) = n /\
        length (Server.creditors st) = m /\
        (length (Server.settlements st) <= Server.i st + Server.j st)%nat /\
        (length (Server.settlements st) <= n + m - 1)%nat).
    destruct (while_invariant P) with (fuel := (n + m)%nat)
      (st := Server.initial b) (st' := st') as [(_ & _ & _ & _ & H) _];
      [| | exact Hw | exact H].
    + intros st d c (Hfs & Hld & Hlc & Hlen & _) Hd Hc.
      destruct (body_finite st d c Hfs Hd Hc)
        as (Hf' & Hld' & Hlc' & Hls & _ & _ & Hij).
      apply lookup_lt_Some in Hd, Hc.
      unfold P. rewrite Hld', Hlc', Hls.
      repeat split; try apply Hf'; lia.
    + unfold P. rewrite Hn, Hm, Hi, Hj, Hs. simpl.
      repeat split; try apply (initial_finite b Hf); lia.
Qed.

Lemma settlements_bounded_witness :
  finite [("A"%string, JS.Fin 60); ("B"%string, JS.Fin (-30));
          ("C"%string, JS.Fin (-30))] /\
  exists l,
    Server.calculateSettlements
      [("A"%string, JS.Fin 60); ("B"%string, JS.Fin (-30));
       ("C"%string, JS.Fin (-30))] = Some l /\
    (forall fuel, (2 + 1 <= fuel)%nat ->
                  Server.settle fuel
                    [("A"%string, JS.Fin 60); ("B"%string, JS.Fin (-30));
                     ("C"%string, JS.Fin (-30))] = Some l) /\
    (length l <= 2 + 1 - 1)%nat.
Proof.
  assert (Hf : finite [("A"%string, JS.Fin 60); ("B"%string, JS.Fin (-30));
                       ("C"%string, JS.Fin (-30))]).
  { repeat constructor. }
  split; [exact Hf |].
  exact (settlements_bounded _ Hf).
Defined.

(** ** The dead zone *)

Lemma body_persons st d c :
  Server.debtors st !! Server.i st = Some d ->
  Server.creditors st !! Server.j st = Some c ->
  Server.person <$> Server.debtors (Server.body st d c)
  = Server.person <$> Server.debtors st /\
  Server.person <$> Server.creditors (Server.body st d c)
  = Server.person <$> Server.creditors st /\
  Server.settlements (Server.body st d c)
  = Server.settlements st ++
    [Settlement.mk (Server.person d) (Server.person c)
                   (JS.min (Server.amount d) (Server.amount c))].
Proof.
  intros Hd Hc. unfold Server.body. simpl.
  rewrite !list_fmap_insert. simpl.
  rewrite !list_insert_id; [auto | |];
    rewrite list_lookup_fmap; [rewrite Hc | rewrite Hd]; reflexivity.
Qed.

Lemma debtorsOf_person b p :
  p ∈ (Server.person <$> debtorsOf b) ->
  exists v, In (p, v) b /\ isDebtor (p, v) = true.
Proof.
  induction b as [| [k v] b IH]; simpl.
  - intros H. inversion H.
  - destruct (isDebtor (k, v)) eqn:E.
    + rewrite fmap_cons. simpl. intros H. apply elem_of_cons in H as [-> | H].
      * exists v. auto.
      * destruct (IH H) as (v' & Hin & Hv'). eauto.
    + intros H. destruct (IH H) as (v' & Hin & Hv'). eauto.
Qed.

Lemma creditorsOf_person b p :
  p ∈ (Server.person <$> creditorsOf b) ->
  exists v, In (p, v) b /\ isCreditor (p, v) = true.
Proof.
  induction b as [| [k v] b IH]; simpl.
  - intros H. inversion H.
  - destruct (isCreditor (k, v)) eqn:E.
    + rewrite fmap_cons. simpl. intros H. apply elem_of_cons in H as [-> | H].
      * exists v. auto.
      * destruct (IH H) as (v' & Hin & Hv'). eauto.
    + intros H. destruct (IH H) as (v' & Hin & Hv'). eauto.
Qed.

Lemma wf_unique {V} (o : Obj.t V) k v v' :
  Obj.wf o -> In (k, v) o -> In (k, v') o -> v = v'.
Proof.
  intros Hwf H H'. apply (In_get _ _ _ Hwf) in H, H'. congruence.
Qed.

Lemma deadZone_neither k v :
  inDeadZone v -> isDebtor (k, v) = false /\ isCreditor (k, v) = false.
Proof.
  intros (q & -> & Hlo & Hhi). unfold isDebtor, isCreditor, JS.gt. simpl.
  split; apply Qltb_ge; lra.
Qed.

(** Who pays and who is paid: debtors pay creditors. *)
Lemma settle_parties b fuel l s :
  Server.settle fuel b = Some l -> In s l ->
  Settlement.from s ∈ (Server.person <$> debtorsOf b) /\
  Settlement.to s ∈ (Server.person <$> creditorsOf b).
Proof.
  unfold Server.settle. intros Hs Hin.
  destruct (Server.while fuel (Server.initial b)) as [st' |] eqn:Hw;
    [| discriminate].
  injection Hs as <-.
  pose (P := fun st =>
      Server.person <$> Server.debtors st = Server.person <$> debtorsOf b /\
      Server.person <$> Server.creditors st
      = Server.person <$> creditorsOf b /\
      forall s, In s (Server.settlements st) ->
                Settlement.from s ∈ (Server.person <$> debtorsOf b) /\
                Settlement.to s ∈ (Server.person <$> creditorsOf b)).
  destruct (while_invariant P) with (fuel := fuel)
    (st := Server.initial b) (st' := st') as [(_ & _ & H) _];
    [| | exact Hw | exact (H s Hin)].
  - intros st d c (Hpd & Hpc & Hall) Hd Hc.
    destruct (body_persons st d c Hd Hc) as (Hd' & Hc' & Hs').
    unfold P. rewrite Hd', Hc', Hs'. split; [exact Hpd |].
    split; [exact Hpc |].
    intros s' Hs. apply in_app_iff in Hs as [Hs | [<- | []]]; [auto |].
    simpl. rewrite <- Hpd, <- Hpc. split.
    + apply list_elem_of_fmap. exists d. split; [reflexivity |].
      eapply list_elem_of_lookup_2; eauto.
    + apply list_elem_of_fmap. exists c. split; [reflexivity |].
      eapply list_elem_of_lookup_2; eauto.
  - unfold P. rewrite initial_spec. simpl. repeat split; tauto.
Qed.

(** C8: for every balance map, a member whose balance lies within the
    dead zone [-0.01, 0.01] appears neither as the from-member nor as the
    to-member of a settlement returned by the planner. *)
Theorem dead_zone_untouched (b : Obj.t JS.number) (fuel : nat)
        (l : list Settlement.t) (k : string) (v : JS.number) :
  Obj.wf b -> In (k, v) b -> inDeadZone v ->
  Server.settle fuel b = Some l ->
  forall s, In s l -> Settlement.from s <> k /\ Settlement.to s <> k.
Proof.
  intros Hwf Hin Hz Hs s Hsl.
  destruct (deadZone_neither k v Hz) as [Hnd Hnc].
  destruct (settle_parties b fuel l s Hs Hsl) as [Hfrom Hto].
  split; intros Heq; subst k.
  - apply debtorsOf_person in Hfrom as (v' & Hin' & Hd).
    rewrite (wf_unique b _ _ _ Hwf Hin Hin') in Hnd. congruence.
  - apply creditorsOf_person in Hto as (v' & Hin' & Hc).
    rewrite (wf_unique b _ _ _ Hwf Hin Hin') in Hnc. congruence.
Qed.

(** ** Paying the settlements *)



(** ** The invariant of the loop *)




Lemma debtorsOf_elem b p :
  p ∈ debtorsOf b ->
  exists v, In (Server.person p, v) b /\
            isDebtor (Server.person p, v) = true /\
            Server.amount p = JS.neg v.
Proof.
  induction b as [| [k v] b IH]; simpl.
  - intros H. inversion H.
  - destruct (isDebtor (k, v)) eqn:E.
    + intros H. apply elem_of_cons in H as [-> | H].
      * exists v. simpl. auto.
      * destruct (IH H) as (v' & Hin & Hv'). eauto.
    + intros H. destruct (IH H) as (v' & Hin & Hv'). eauto.
Qed.

Lemma creditorsOf_elem b p :
  p ∈ creditorsOf b ->
  exists v, In (Server.person p, v) b /\
            isCreditor (Server.person p, v) = true /\
            Server.amount p = v.
Proof.
  induction b as [| [k v] b IH]; simpl.
  - intros H. inversion H.
  - destruct (isCreditor (k, v)) eqn:E.
    + intros H. apply elem_of_cons in H as [-> | H].
      * exists v. simpl. auto.
      * destruct (IH H) as (v' & Hin & Hv'). eauto.
    + intros H. destruct (IH H) as (v' & Hin & Hv'). eauto.
Qed.



Lemma persons_keys b k :
  k ∈ (Server.person <$> debtorsOf b) \/
  k ∈ (Server.person <$> creditorsOf b) ->
  In k (Obj.keys b).
Proof.
  intros [H | H];
    [apply debtorsOf_person in H | apply creditorsOf_person in H];
    destruct H as (v & Hin & _); apply (in_map fst) in Hin; exact Hin.
Qed.

Lemma persons_nodup b :
  Obj.wf b ->
  NoDup ((Server.person <$> debtorsOf b) ++
         (Server.person <$> creditorsOf b)).
Proof.
  unfold Obj.wf. induction b as [| [k v] b IH]; simpl.
  - constructor.
  - intros Hnd. apply NoDup_cons in Hnd as [Hk Hnd].
    rewrite list_elem_of_In in Hk.
    assert (Hfresh : (k ∉ (Server.person <$> debtorsOf b)) /\
                     (k ∉ (Server.person <$> creditorsOf b))).
    { split; intros H; apply Hk; apply persons_keys; auto. }
    destruct Hfresh as [Hkd Hkc].
    specialize (IH Hnd). apply NoDup_app in IH as (Hd & Hdisj & Hc).
    destruct (isDebtor (k, v)) eqn:Ed.
    + rewrite (debtor_not_creditor _ Ed). rewrite fmap_cons. simpl.
      apply NoDup_cons. split.
      * rewrite elem_of_app. tauto.
      * apply NoDup_app. auto.
    + destruct (isCreditor (k, v)).
      * rewrite fmap_cons. simpl. apply NoDup_app.
        split; [exact Hd |]. split.
        -- intros x Hx Hx'. apply elem_of_cons in Hx' as [-> | Hx'];
             [tauto | now apply (Hdisj x)].
        -- apply NoDup_cons. auto.
      * apply NoDup_app. auto.
Qed.


(** The planner runs to its end on finite balances. *)
Lemma calculateSettlements_runs b :
  finite b ->
  exists st',
    Server.while (length (debtorsOf b) + length (creditorsOf b))
                 (Server.initial b) = Some st' /\
    Server.calculateSettlements b = Some (Server.settlements st').
Proof.
  intros Hf.
  destruct (while_terminates
              (length (debtorsOf b) + length (creditorsOf b))
              (Server.initial b)) as [st' Hw].
  - now apply initial_finite.
  - unfold remaining. rewrite initial_spec. simpl. lia.
  - exists st'. split; [exact Hw |].
    unfold Server.calculateSettlements, Server.settle.
    replace (length (Server.debtors (Server.initial b)))
      with (length (debtorsOf b)) by now rewrite initial_spec.
    replace (length (Server.creditors (Server.initial b)))
      with (length (creditorsOf b)) by now rewrite initial_spec.
    now rewrite Hw.
Qed.

(** ** Sums with one-sided bounds *)







(** ** Settlement correctness *)







Lemma dead_zone_untouched_witness :
  (Obj.wf Scenario.settled /\
   In ("C"%string, JS.Fin 0.005) Scenario.settled /\
   inDeadZone (JS.Fin 0.005) /\
   Server.settle 2 Scenario.settled
   = Some [Settlement.mk "B" "A" (JS.Fin (- -60))]) /\
  forall s, In s [Settlement.mk "B" "A" (JS.Fin (- -60))] ->
            Settlement.from s <> "C"%string /\
            Settlement.to s <> "C"%string.
Proof.
  assert (Hwf : Obj.wf Scenario.settled).
  { unfold Obj.wf. simpl.
    repeat (apply NoDup_cons; split); try constructor;
      rewrite list_elem_of_In; simpl; intuition discriminate. }
  assert (Hin : In ("C"%string, JS.Fin 0.005) Scenario.settled).
  { simpl. tauto. }
  assert (Hz : inDeadZone (JS.Fin 0.005)).
  { exists 0.005. split; [reflexivity |]. split; discriminate. }
  assert (Hs : Server.settle 2 Scenario.settled
               = Some [Settlement.mk "B" "A" (JS.Fin (- -60))]).
  { reflexivity. }
  split; [repeat split; assumption |].
  exact (dead_zone_untouched Scenario.settled 2 _ "C"%string _
                             Hwf Hin Hz Hs).
Defined.

(** ** The custom-split check of the creation endpoint *)

(** The rounding of [JS.round] on some well-known cases: the sum of the
    doubles of 0.1 and 0.2 is the double of 0.30000000000000004 and not
    that of 0.3; a tie goes to the even neighbour; the double of 0.01 is
    above one hundredth; twice 1e308 is infinite; half the least double
    is zero. *)
Lemma round_samples :
  JS.add64 (JS.literal 0.1) (JS.literal 0.2)
  = JS.literal 0.30000000000000004 /\
  JS.add64 (JS.literal 0.1) (JS.literal 0.2) <> JS.literal 0.3 /\
  JS.round (inject_Z (2 ^ 53 + 1)) = JS.Fin (inject_Z (2 ^ 53)) /\
  JS.round (inject_Z (2 ^ 53 + 3)) = JS.Fin (inject_Z (2 ^ 53 + 4)) /\
  1 # 100 < JS.toQ (JS.literal 0.01) /\
  JS.add64 (JS.literal 1e308) (JS.literal 1e308) = JS.PInf /\
  JS.round (1 # Z.to_pos (2 ^ 1074)) = JS.Fin (1 # Z.to_pos (2 ^ 1074)) /\
  JS.round (1 # Z.to_pos (2 ^ 1075)) = JS.Fin 0.
Proof.
  repeat split; try (vm_compute; reflexivity).
  vm_compute. discriminate.
Qed.

Lemma create_outcome accepts updates now db user gid t a p d sa sm ca :
  let r := Expenses.create accepts updates now db user gid t a p d sa sm
                           ca in
  exists doc,
    doc = Expenses.document user gid t a p d sa sm ca /\
    ((accepts doc = false /\
      fst r = Expenses.mkResponse 500 "Server error creating expense" None /\
      snd r = db) \/
     (accepts doc = true /\ updates gid = true /\
      fst r = Expenses.mkResponse 201 "" (Some doc) /\
      snd r = Expenses.mkDatabase
                (Expenses.touch now gid (Expenses.groups db))
                (Expenses.expenses db ++ [doc])) \/
     (accepts doc = true /\ updates gid = false /\
      fst r = Expenses.mkResponse 500 "Server error creating expense" None /\
      snd r = Expenses.mkDatabase (Expenses.groups db)
                                  (Expenses.expenses db ++ [doc]))).
Proof.
  unfold Expenses.create. cbv zeta.
  match goal with |- context [accepts ?doc] =>
    exists doc; destruct (accepts doc) eqn:E end.
  - destruct (updates gid) eqn:U; simpl; auto 10.
  - simpl. auto 10.
Qed.

Lemma document_custom user gid t a p d sa custom :
  Schema.groupId (Expenses.document user gid t a p d sa
                                    (Some "custom"%string) (Some custom))
  = gid /\
  Schema.amount (Expenses.document user gid t a p d sa
                                   (Some "custom"%string) (Some custom))
  = a /\
  Schema.customAmounts (Expenses.document user gid t a p d sa
                                          (Some "custom"%string)
                                          (Some custom))
  = Some custom.
Proof. repeat split. Qed.

(** C9, as stated, fails.  A custom request whose customAmounts add up
    to its amount is answered 400 when a required field is missing.  And
    the check is made in double precision: of two requests that are one
    cent short, 0.03 + 0.04 against 0.08 is stored, the difference that
    the program computes being below its 0.01 although the numbers
    themselves differ by more, and 0.02 + 0.12 against 0.15 is refused,
    although its numbers differ by less than 0.01. *)
Lemma custom_check_counterexample :
  (Expenses.splitMethod Scenario.untitledRequest = Some "custom"%string /\
   (forall accepts updates now,
       Expenses.status
         (fst (Expenses.postExpense accepts updates now Scenario.db
                                    Scenario.untitledRequest)) = 400%nat) /\
   exists custom a,
     Expenses.customAmounts Scenario.untitledRequest = Some custom /\
     Expenses.amount Scenario.untitledRequest = Some a /\
     Qabs (Qsum (Obj.values custom) - a) < 0.01) /\
  (Expenses.splitMethod Scenario.shortRequest = Some "custom"%string /\
   Expenses.status
     (fst (Expenses.postExpense (fun _ => true) (fun _ => true) 1
                                Scenario.db Scenario.shortRequest))
   = 201%nat /\
   exists custom a,
     Expenses.customAmounts Scenario.shortRequest = Some custom /\
     Expenses.amount Scenario.shortRequest = Some a /\
     0.01 <= Qabs (Qsum (Obj.values custom) - a)) /\
  (Expenses.splitMethod Scenario.nearRequest = Some "custom"%string /\
   (forall accepts updates now,
       fst (Expenses.postExpense accepts updates now Scenario.db
                                 Scenario.nearRequest)
       = Expenses.bad "Custom amounts must sum to total amount") /\
   exists custom a,
     Expenses.customAmounts Scenario.nearRequest = Some custom /\
     Expenses.amount Scenario.nearRequest = Some a /\
     Qabs (Qsum (Obj.values custom) - a) < 0.01).
Proof.
  split; [| split].
  - split; [reflexivity |].
    split; [intros accepts updates now; reflexivity |].
    eexists. eexists. split; [reflexivity |]. split; [reflexivity |].
    reflexivity.
  - split; [reflexivity |]. split; [vm_compute; reflexivity |].
    eexists. eexists. split; [reflexivity |]. split; [reflexivity |].
    apply Qle_bool_iff. vm_compute. reflexivity.
  - split; [reflexivity |]. split.
    + intros accepts updates now. vm_compute. reflexivity.
    + eexists. eexists. split; [reflexivity |]. split; [reflexivity |].
      vm_compute. reflexivity.
Qed.

(** C9 (amended): for every creation request with splitMethod custom that
    carries all the required fields and names a group of the requester,
    the endpoint responds with a 400 error, and leaves the store as it
    was, exactly when customAmounts is absent or
    Math.abs(totalCustom - amount) >= 0.01 holds as the program computes
    it, in double precision, totalCustom being the values added up from
    0 in the order of the keys.  Otherwise it hands the expense to
    Expense.create with those customAmounts: when that throws, the answer
    is 500 and nothing is stored; when it succeeds the expense is stored,
    and the answer is 201 once updatedAt of the group has been set, or
    500, the expense staying in the store, when that update throws. *)
Theorem custom_check
        (accepts : Schema.Expense -> bool) (updates : string -> bool)
        (now : nat) (db : Expenses.database)
        (req : Expenses.request) (gid t p d : string) (a : Q)
        (sa : list string) (g : Schema.Group) :
  Expenses.truthyString (Expenses.groupId req) = Some gid ->
  Expenses.truthyString (Expenses.title req) = Some t ->
  Expenses.truthyNumber (Expenses.amount req) = Some a ->
  Expenses.truthyString (Expenses.paidBy req) = Some p ->
  Expenses.truthyString (Expenses.date req) = Some d ->
  Expenses.splitAmong req = Some sa ->
  Expenses.findGroup db gid (Expenses.userId req) = Some g ->
  Expenses.splitMethod req = Some "custom"%string ->
  let r := Expenses.postExpense accepts updates now db req in
  (Expenses.status (fst r) = 400%nat <->
   Expenses.customAmounts req = None \/
   exists custom,
     Expenses.customAmounts req = Some custom /\
     JS.ge (JS.abs (JS.sub64 (Expenses.totalCustom custom) (JS.Fin a)))
           (JS.literal 0.01) = true) /\
  (Expenses.status (fst r) = 400%nat ->
   snd r = db /\ Expenses.expense (fst r) = None) /\
  (Expenses.status (fst r) <> 400%nat ->
   exists custom doc,
     Expenses.customAmounts req = Some custom /\
     Schema.groupId doc = gid /\ Schema.amount doc = a /\
     Schema.customAmounts doc = Some custom /\
     ((accepts doc = false /\ Expenses.status (fst r) = 500%nat /\
       snd r = db) \/
      (accepts doc = true /\ updates gid = true /\
       fst r = Expenses.mkResponse 201 "" (Some doc) /\
       Expenses.expenses (snd r) = Expenses.expenses db ++ [doc] /\
       Expenses.groups (snd r)
       = Expenses.touch now gid (Expenses.groups db)) \/
      (accepts doc = true /\ updates gid = false /\
       Expenses.status (fst r) = 500%nat /\
       Expenses.expense (fst r) = None /\
       Expenses.expenses (snd r) = Expenses.expenses db ++ [doc] /\
       Expenses.groups (snd r) = Expenses.groups db))).
Proof.
  intros Hg Ht Ha Hp Hd Hsa Hgrp Hsm r. subst r.
  unfold Expenses.postExpense. rewrite Hg, Ht, Ha, Hp, Hd, Hsa, Hgrp, Hsm.
  cbv beta iota. rewrite String.eqb_refl.
  destruct (Expenses.customAmounts req) as [custom |] eqn:Hc.
  - change (JS.ge (JS.abs (JS.sub64 (Expenses.totalCustom custom)
                                    (JS.Fin a))) (JS.literal 0.01))
      with (Expenses.offByACent custom a).
    destruct (Expenses.offByACent custom a) eqn:E.
    + cbn [fst snd Expenses.status Expenses.bad Expenses.expense].
      split; [| split].
      * split; [| reflexivity]. intros _. right. exists custom. now split.
      * auto.
      * intros H. congruence.
    + pose proof (create_outcome accepts updates now db (Expenses.userId req)
                    gid t a p d sa (Some "custom"%string) (Some custom))
        as Hout.
      cbv beta iota zeta in Hout.
      set (r := Expenses.create _ _ _ _ _ _ _ _ _ _ _ _ _) in *.
      destruct Hout as (doc & -> & Hout).
      destruct (document_custom (Expenses.userId req) gid t a p d sa custom)
        as (H1 & H2 & H4).
      set (doc := Expenses.document _ _ _ _ _ _ _ _ _) in *.
      assert (Hne : Expenses.status (fst r) <> 400%nat).
      { destruct Hout as [(_ & -> & _) | [(_ & _ & -> & _) | (_ & _ & -> & _)]];
          cbn [Expenses.status]; discriminate. }
      split; [| split].
      * split; [intros H; congruence |].
        intros [H | (custom' & [= <-] & H)]; [discriminate |].
        unfold Expenses.offByACent in E. congruence.
      * intros H. congruence.
      * intros _. exists custom, doc. do 4 (split; [assumption |]).
        destruct Hout as [(Ha1 & -> & ->) | [(Ha1 & Hu & -> & ->)
                                            | (Ha1 & Hu & -> & ->)]].
        -- left. auto.
        -- right. left. auto 10.
        -- right. right. auto 10.
  - cbn [fst snd Expenses.status Expenses.bad Expenses.expense].
    split; [| split].
    + split; auto.
    + auto.
    + intros H. congruence.
Qed.

Lemma custom_check_witness :
  (Expenses.truthyString (Expenses.groupId Scenario.hotelRequest)
   = Some "g1"%string /\
   Expenses.truthyString (Expenses.title Scenario.hotelRequest)
   = Some "Hotel"%string /\
   Expenses.truthyNumber (Expenses.amount Scenario.hotelRequest)
   = Some 100 /\
   Expenses.truthyString (Expenses.paidBy Scenario.hotelRequest)
   = Some "A"%string /\
   Expenses.truthyString (Expenses.date Scenario.hotelRequest)
   = Some "2024-01-02"%string /\
   Expenses.splitAmong Scenario.hotelRequest = Some ["A"; "B"]%string /\
   Expenses.findGroup Scenario.db "g1" (Expenses.userId Scenario.hotelRequest)
   = Some Scenario.roommates /\
   Expenses.splitMethod Scenario.hotelRequest = Some "custom"%string) /\
  Expenses.status
    (fst (Expenses.postExpense (fun _ => true) (fun _ => true) 1
                               Scenario.db Scenario.hotelRequest))
  <> 400%nat /\
  Expenses.postExpense (fun _ => true) (fun _ => true) 1 Scenario.db
                       Scenario.hotelRequest
  = (Expenses.mkResponse 201 "" (Some Scenario.hotel),
     Expenses.mkDatabase (Expenses.touch 1 "g1" [Scenario.roommates])
                         [Scenario.hotel]).
Proof.
  split; [repeat split |].
  pose proof (custom_check (fun _ => true) (fun _ => true) 1 Scenario.db
                Scenario.hotelRequest
                "g1" "Hotel" "A" "2024-01-02" 100 ["A"; "B"]%string
                Scenario.roommates eq_refl eq_refl eq_refl eq_refl eq_refl
                eq_refl eq_refl eq_refl) as (H & _ & _).
  split; [| vm_compute; reflexivity].
  intros H400. apply H in H400 as [H' | (custom & [= <-] & H')].
  - discriminate.
  - vm_compute in H'. discriminate.
Defined.

(** ** The planner of [routes/analytics.js] and its argument *)

Lemma forRange_preserves {A} (P : Store.t -> Prop)
      (f : nat -> A -> Store.M A) :
  (forall x acc s, P s -> P (snd (f x acc s))) ->
  forall count lo acc s, P s -> P (snd (Store.forRange lo count f acc s)).
Proof.
  intros Hf. induction count as [| count IH]; intros lo acc s HP; simpl.
  - exact HP.
  - unfold Store.bind. specialize (Hf lo acc s HP).
    destruct (f lo acc s) as [a s']. now apply IH.
Qed.

Lemma updateProp_extends s o k f :
  snd (Store.updateProp (length s) k f (s ++ [o]))
  = s ++ [Obj.update o k f].
Proof.
  unfold Store.updateProp, Store.t. simpl.
  rewrite alter_app_r_alt by lia. now rewrite Nat.sub_diag.
Qed.

Lemma pair_extends s member1 member2 settlements s1 :
  extends s s1 ->
  extends s (snd (Analytics.pair (length s) member1 member2
                                        settlements s1)).
Proof.
  intros [o ->]. unfold Analytics.pair, Store.bind, Store.getProp.
  unfold Store.t, Store.ref in *.
  rewrite lookup_app_r by lia. rewrite Nat.sub_diag.
  cbn [lookup list_lookup].
  assert (Hsame : forall l : list Settlement.t,
             extends s (snd (Store.ret l (s ++ [o]))))
    by (intros l; now exists o).
  destruct (Obj.get o member1) as [balance1 |]; [| apply Hsame].
  destruct (Obj.get o member2) as [balance2 |]; [| apply Hsame].
  destruct (JS.gt balance1 (JS.Fin 0.01) && JS.lt balance2 (JS.Fin (-0.01)));
    [| apply Hsame].
  pose proof (updateProp_extends s o member1
                (fun v => JS.sub v (JS.min balance1 (JS.neg balance2))))
    as H1.
  destruct (Store.updateProp (length s) member1 _ (s ++ [o])) as [[] s2].
  cbn [snd] in H1. subst s2.
  pose proof (updateProp_extends s
                (Obj.update o member1
                   (fun v => JS.sub v (JS.min balance1 (JS.neg balance2))))
                member2
                (fun v => JS.add v (JS.min balance1 (JS.neg balance2))))
    as H2.
  destruct (Store.updateProp (length s) member2 _ _) as [[] s3].
  cbn [snd] in H2. subst s3. eexists. reflexivity.
Qed.

Lemma inner_extends s members i settlements s1 :
  extends s s1 ->
  extends s (snd (Analytics.inner (length s) members i
                                         settlements s1)).
Proof.
  intros H. unfold Analytics.inner.
  apply forRange_preserves; [| exact H].
  intros j acc s2 H2.
  destruct (members !! i) as [member1 |]; [| exact H2].
  destruct (members !! j) as [member2 |]; [| exact H2].
  now apply pair_extends.
Qed.

Lemma calculateSettlements_extends s balances :
  extends s (snd (Analytics.calculateSettlements balances s)).
Proof.
  unfold Analytics.calculateSettlements, Store.bind, Store.keysOf,
    Store.contentOf, Store.alloc.
  apply forRange_preserves.
  - intros i acc s1. apply inner_extends.
  - eexists. reflexivity.
Qed.

(** C10: for every input balance map, calculateSettlements returns its
    settlement list without modifying the balance map it was given (nor
    any other object of the store): the planner works on a copy. *)
Theorem argument_untouched (s : Store.t) (balances : Store.ref)
        (content : Obj.t JS.number) :
  s !! balances = Some content ->
  snd (Analytics.calculateSettlements balances s) !! balances
  = Some content /\
  forall r o, s !! r = Some o ->
              snd (Analytics.calculateSettlements balances s) !! r
              = Some o.
Proof.
  intros Hb. destruct (calculateSettlements_extends s balances) as [c ->].
  assert (H : forall r o, s !! r = Some o -> (s ++ [c]) !! r = Some o).
  { intros r o Hr. rewrite lookup_app_l; [exact Hr |].
    eapply lookup_lt_Some; eauto. }
  auto.
Qed.

Lemma argument_untouched_witness :
  [Scenario.trip] !! O = Some Scenario.trip /\
  snd (Analytics.calculateSettlements O [Scenario.trip]) !! O
  = Some Scenario.trip /\
  fst (Analytics.calculateSettlements O [Scenario.trip])
  = [Settlement.mk "B" "A" (JS.Fin (- -30));
     Settlement.mk "C" "A" (JS.Fin (- -30))].
Proof.
  split; [reflexivity |].
  split; [| reflexivity].
  exact (proj1 (argument_untouched [Scenario.trip] O Scenario.trip eq_refl)).
Defined.

(** ** The other planner *)

Lemma forRange_invariant {A} (P : A -> Store.t -> Prop)
      (f : nat -> A -> Store.M A) :
  (forall x acc s, P acc s -> P (fst (f x acc s)) (snd (f x acc s))) ->
  forall count lo acc s,
    P acc s ->
    P (fst (Store.forRange lo count f acc s))
      (snd (Store.forRange lo count f acc s)).
Proof.
  intros Hf. induction count as [| count IH]; intros lo acc s HP; simpl.
  - exact HP.
  - unfold Store.bind. specialize (Hf lo acc s HP).
    destruct (f lo acc s) as [a s']. now apply IH.
Qed.

(** The planner of routes/analytics.js leaves the members of the dead
    zone out of its settlements as well. *)
Lemma dead_zone_untouched_analytics (s : Store.t) (balances : Store.ref)
      (content : Obj.t JS.number) (k : string) (v : JS.number) :
  s !! balances = Some content -> Obj.get content k = Some v ->
  inDeadZone v ->
  forall st, In st (fst (Analytics.calculateSettlements balances s)) ->
             Settlement.from st <> k /\ Settlement.to st <> k.
Proof.
  intros Hb Hk Hz.
  destruct (deadZone_neither k v Hz) as [Hnd Hnc].
  change (JS.lt v (JS.Fin (-0.01)) = false) in Hnd.
  change (JS.gt v (JS.Fin 0.01) = false) in Hnc.
  pose (P := fun (acc : list Settlement.t) (s1 : Store.t) =>
               (exists o, s1 = s ++ [o] /\ Obj.get o k = Some v) /\
               forall st, In st acc ->
                          Settlement.from st <> k /\ Settlement.to st <> k).
  assert (Hpair : forall m1 m2 acc s1,
             P acc s1 ->
             P (fst (Analytics.pair (length s) m1 m2 acc s1))
               (snd (Analytics.pair (length s) m1 m2 acc s1))).
  { intros m1 m2 acc s1 [(o & -> & Ho) Hacc].
    unfold Analytics.pair, Store.bind, Store.getProp.
    unfold Store.t, Store.ref in *.
    rewrite lookup_app_r by lia. rewrite Nat.sub_diag.
    cbn [lookup list_lookup].
    assert (Hsame : P (fst (Store.ret acc (s ++ [o])))
                      (snd (Store.ret acc (s ++ [o]))))
      by (split; [exists o |]; auto).
    destruct (Obj.get o m1) as [balance1 |] eqn:E1; [| apply Hsame].
    destruct (Obj.get o m2) as [balance2 |] eqn:E2; [| apply Hsame].
    destruct (JS.gt balance1 (JS.Fin 0.01)) eqn:G1; [| apply Hsame].
    destruct (JS.lt balance2 (JS.Fin (-0.01))) eqn:G2; [| apply Hsame].
    cbn [andb].
    assert (Hm1 : m1 <> k).
    { intros ->. rewrite Ho in E1. injection E1 as <-. congruence. }
    assert (Hm2 : m2 <> k).
    { intros ->. rewrite Ho in E2. injection E2 as <-. congruence. }
    set (amount := JS.min balance1 (JS.neg balance2)).
    pose proof (updateProp_extends s o m1 (fun v => JS.sub v amount)) as H1.
    destruct (Store.updateProp (length s) m1 _ (s ++ [o])) as [[] s2].
    cbn [snd] in H1. subst s2.
    pose proof (updateProp_extends s
                  (Obj.update o m1 (fun v => JS.sub v amount)) m2
                  (fun v => JS.add v amount)) as H2.
    destruct (Store.updateProp (length s) m2 _ _) as [[] s3].
    cbn [snd] in H2. subst s3. unfold Store.ret. cbn [fst snd].
    split.
    - eexists. split; [reflexivity |].
      now rewrite !get_update_ne by exact Hm2 || exact Hm1.
    - intros st Hst. apply in_app_iff in Hst as [Hst | [<- | []]];
        [now apply Hacc | simpl; auto]. }
  assert (Hinner : forall members i acc s1,
             P acc s1 ->
             P (fst (Analytics.inner (length s) members i acc s1))
               (snd (Analytics.inner (length s) members i acc s1))).
  { intros members i acc s1 HP. unfold Analytics.inner.
    apply (forRange_invariant P); [| exact HP].
    intros j acc' s2 HP'.
    destruct (members !! i) as [m1 |]; [| exact HP'].
    destruct (members !! j) as [m2 |]; [| exact HP'].
    now apply Hpair. }
  unfold Analytics.calculateSettlements, Store.bind, Store.keysOf,
    Store.contentOf, Store.alloc.
  apply (forRange_invariant P).
  - intros i acc s1. apply Hinner.
  - split; [| intros st []].
    exists content. split; [| exact Hk].
    do 2 f_equal. exact (f_equal (default []) Hb).
Qed.

(** The planner of routes/analytics.js pairs a creditor only with the
    debtors that come after it in the map: a debtor that comes first
    keeps its debt. *)
Example analytics_planner_order :
  fst (Analytics.calculateSettlements
         O [[("A"%string, JS.Fin 30); ("B"%string, JS.Fin (-30))]])
  = [Settlement.mk "B" "A" (JS.Fin 30)] /\
  fst (Analytics.calculateSettlements
         O [[("B"%string, JS.Fin (-30)); ("A"%string, JS.Fin 30)]])
  = [].
Proof. split; reflexivity. Qed.

(** Balances that are not finite are outside the balance maps of the
    specification; on them the loop of server.js need not end. *)
Remark infinite_balances_diverge (fuel : nat) :
  Server.settle fuel [("A"%string, JS.PInf); ("B"%string, JS.NInf)] = None.
Proof.
  unfold Server.settle.
  assert (H : forall fuel l,
             Server.while fuel
               (Server.mkState [Server.mkParty "B" JS.NaN]
                               [Server.mkParty "A" JS.NaN] 0 0 l) = None).
  { clear fuel. induction fuel as [| fuel IH]; intros l; [reflexivity |].
    simpl. apply IH. }
  destruct fuel as [| fuel]; [reflexivity |].
  simpl. unfold Server.body. simpl. now rewrite H.
Qed.


(** * Further properties of the code *)

(** ** Totals of dictionaries built with [x[k] = (x[k] || 0) + v] *)

Lemma total_set_absent (o : Obj.t JS.number) k v :
  Obj.get o k = None -> total (Obj.set o k v) == total o + JS.toQ v.
Proof.
  induction o as [| [k' v'] o IH]; simpl; [intros _; lra |].
  destruct (String.eqb k k'); [discriminate |].
  intros H. simpl. rewrite (IH H). lra.
Qed.

Lemma bump_total b k a :
  finite b -> total (Server.bump b k (JS.Fin a)) == total b + a.
Proof.
  intros Hf. unfold Server.bump.
  destruct (Obj.get b k) as [v |] eqn:E.
  - destruct (finite_get _ _ _ Hf E) as [q ->].
    rewrite (total_set _ _ _ _ E). simpl.
    destruct (Qeq_bool q 0) eqn:Eq; simpl; [| lra].
    apply Qeq_bool_iff in Eq. lra.
  - rewrite (total_set_absent _ _ _ E). simpl. lra.
Qed.

Lemma drop_total b k a :
  finite b -> total (Server.drop b k (JS.Fin a)) == total b - a.
Proof.
  intros Hf. unfold Server.drop.
  destruct (Obj.get b k) as [v |] eqn:E.
  - destruct (finite_get _ _ _ Hf E) as [q ->].
    rewrite (total_set _ _ _ _ E). simpl.
    destruct (Qeq_bool q 0) eqn:Eq; simpl; [| lra].
    apply Qeq_bool_iff in Eq. lra.
  - rewrite (total_set_absent _ _ _ E). simpl. lra.
Qed.

Lemma spent_filed_cons key c e es :
  spent (filedUnder key c (e :: es))
  == (if String.eqb (key e) c then Schema.amount e else 0)
     + spent (filedUnder key c es).
Proof.
  unfold spent, filedUnder. simpl.
  destruct (String.eqb (key e) c); simpl; lra.
Qed.

Lemma tally_spec key es b :
  finite b ->
  finite (tally key es b) /\
  total (tally key es b) == total b + spent es /\
  (forall c, balanceOf (tally key es b) c
             == balanceOf b c + spent (filedUnder key c es)) /\
  (forall c, In c (Obj.keys (tally key es b)) <->
             In c (Obj.keys b) \/ exists e, In e es /\ key e = c).
Proof.
  revert b. induction es as [| e es IH]; intros b Hf.
  - simpl. split; [exact Hf |]. unfold spent. simpl.
    split; [lra |]. split; [intros c; lra |].
    intros c. split; [tauto | intros [H | (e & [] & _)]; exact H].
  - unfold tally in *. simpl fold_left.
    destruct (bump_spec b (key e) (Schema.amount e) Hf) as (Hf1 & Hk1 & Hb1).
    destruct (IH _ Hf1) as (Hf2 & Ht2 & Hb2 & Hk2).
    split; [exact Hf2 |]. split; [| split].
    + rewrite Ht2, (bump_total _ _ _ Hf). unfold spent. simpl. lra.
    + intros c. rewrite Hb2, Hb1, spent_filed_cons. lra.
    + intros c. rewrite Hk2, Hk1. split.
      * intros [[H | H] | (e' & He' & H)].
        -- now left.
        -- right. exists e. split; [now left | exact H].
        -- right. exists e'. split; [now right | exact H].
      * intros [H | (e' & [<- | He'] & H)]; eauto 6.
Qed.

Lemma sumAmounts_from es a :
  exists s, fold_left (fun sum e => JS.add sum (JS.Fin (Schema.amount e)))
                      es (JS.Fin a) = JS.Fin s /\ s == a + spent es.
Proof.
  revert a. induction es as [| e es IH]; intros a; simpl.
  - exists a. unfold spent. simpl. split; [reflexivity | lra].
  - destruct (IH (a + Schema.amount e)) as (s & Hs & Heq).
    exists s. split; [exact Hs |]. unfold spent in *. simpl. lra.
Qed.

Lemma sumAmounts_spec es :
  exists s, AnalyticsRoute.sumAmounts es = JS.Fin s /\ s == spent es.
Proof.
  destruct (sumAmounts_from es 0) as (s & Hs & Heq).
  exists s. split; [exact Hs | lra].
Qed.

Lemma tally_running key es c :
  sameNumber (JS.orZero (Obj.get (tally key es []) c))
             (AnalyticsRoute.sumAmounts (filedUnder key c es)).
Proof.
  destruct (tally_spec key es []) as (Hf & _ & Hb & _); [constructor |].
  destruct (orZero_get _ c Hf) as (q & Hq & Heq).
  destruct (sumAmounts_spec (filedUnder key c es)) as (s & Hs & Heq').
  rewrite Hq, Hs. simpl. rewrite Heq, Heq', Hb. unfold balanceOf. simpl. lra.
Qed.

(** X1: in the report of routes/analytics.js the keys of categoryData
    are the categories of the expenses, and the entry of a category is
    the running sum, in the order of the expenses, of the amounts filed
    under it: the number that the reduce of totalSpending gives on these
    expenses alone.  (The entries add up to totalSpending over the
    rationals only: the program adds the same amounts in another
    order.) *)
Theorem category_totals (es : list Schema.Expense) :
  (forall c,
      sameNumber
        (JS.orZero (Obj.get (AnalyticsRoute.categoryTotals es) c))
        (AnalyticsRoute.sumAmounts
           (filedUnder AnalyticsRoute.categoryOf c es))) /\
  (forall c, In c (Obj.keys (AnalyticsRoute.categoryTotals es)) <->
             exists e, In e es /\ AnalyticsRoute.categoryOf e = c).
Proof.
  split.
  - intros c. apply (tally_running AnalyticsRoute.categoryOf).
  - destruct (tally_spec AnalyticsRoute.categoryOf es [])
      as (_ & _ & _ & Hk); [constructor |].
    change (tally AnalyticsRoute.categoryOf es [])
      with (AnalyticsRoute.categoryTotals es) in *.
    intros c. rewrite Hk. simpl. split; [intros [[] | H]; exact H | auto].
Qed.

(** X2: the same holds for the two category breakdowns of server.js,
    which file an expense under the first word of its title
    (Uncategorized, in the report of a group, when that word is empty),
    for titles whose first word is not a name that objects inherit from
    Object.prototype: the entry of a word is the running sum, in the
    order of the expenses, of the amounts filed under it, and the keys
    are the words of the expenses. *)
Theorem server_category_totals (es : list Schema.Expense) :
  Forall (fun e => ordinary (ServerReport.firstWord (Schema.title e))) es ->
  forall c,
    sameNumber
      (JS.orZero (Obj.get (ServerReport.groupCategoryData es) c))
      (AnalyticsRoute.sumAmounts
         (filedUnder ServerReport.groupCategory c es)) /\
    sameNumber
      (JS.orZero (Obj.get (ServerReport.userCategoryData es) c))
      (AnalyticsRoute.sumAmounts
         (filedUnder (fun e => ServerReport.firstWord (Schema.title e))
                     c es)) /\
    (In c (Obj.keys (ServerReport.groupCategoryData es)) <->
     exists e, In e es /\ ServerReport.groupCategory e = c) /\
    (In c (Obj.keys (ServerReport.userCategoryData es)) <->
     exists e, In e es /\ ServerReport.firstWord (Schema.title e) = c).
Proof.
  intros _ c.
  destruct (tally_spec ServerReport.groupCategory es [])
    as (_ & _ & _ & Hk); [constructor |].
  destruct (tally_spec (fun e => ServerReport.firstWord (Schema.title e))
                       es []) as (_ & _ & _ & Hk'); [constructor |].
  split; [apply (tally_running ServerReport.groupCategory) |].
  split; [apply (tally_running
                   (fun e => ServerReport.firstWord (Schema.title e))) |].
  change (tally ServerReport.groupCategory es [])
    with (ServerReport.groupCategoryData es) in *.
  change (tally (fun e => ServerReport.firstWord (Schema.title e)) es [])
    with (ServerReport.userCategoryData es) in *.
  split.
  - rewrite Hk. simpl. split; [intros [[] | H]; exact H | auto].
  - rewrite Hk'. simpl. split; [intros [[] | H]; exact H | auto].
Qed.

Lemma server_category_totals_witness :
  Forall (fun e => ordinary (ServerReport.firstWord (Schema.title e)))
         [Scenario.dinner; Scenario.treat; Scenario.hotel] /\
  forall c,
    sameNumber
      (JS.orZero
         (Obj.get (ServerReport.groupCategoryData
                     [Scenario.dinner; Scenario.treat; Scenario.hotel]) c))
      (AnalyticsRoute.sumAmounts
         (filedUnder ServerReport.groupCategory c
                     [Scenario.dinner; Scenario.treat; Scenario.hotel])) /\
    sameNumber
      (JS.orZero
         (Obj.get (ServerReport.userCategoryData
                     [Scenario.dinner; Scenario.treat; Scenario.hotel]) c))
      (AnalyticsRoute.sumAmounts
         (filedUnder (fun e => ServerReport.firstWord (Schema.title e)) c
                     [Scenario.dinner; Scenario.treat; Scenario.hotel])) /\
    (In c (Obj.keys (ServerReport.groupCategoryData
                       [Scenario.dinner; Scenario.treat; Scenario.hotel]))
     <-> exists e, In e [Scenario.dinner; Scenario.treat; Scenario.hotel] /\
                   ServerReport.groupCategory e = c) /\
    (In c (Obj.keys (ServerReport.userCategoryData
                       [Scenario.dinner; Scenario.treat; Scenario.hotel]))
     <-> exists e, In e [Scenario.dinner; Scenario.treat; Scenario.hotel] /\
                   ServerReport.firstWord (Schema.title e) = c).
Proof.
  assert (H : Forall (fun e => ordinary
                                 (ServerReport.firstWord (Schema.title e)))
                     [Scenario.dinner; Scenario.treat; Scenario.hotel]).
  { repeat constructor; intros Hin; vm_compute in Hin;
      intuition discriminate. }
  split; [exact H |].
  exact (server_category_totals _ H).
Defined.


(** ** The sum of the balances *)






(** ** The balances of server.js *)

Lemma dropAll_total l b :
  finite b -> total (dropAll b l) == total b - Qsum (map snd l).
Proof.
  revert b. induction l as [| [m a] l IH]; intros b Hf.
  - simpl. lra.
  - unfold dropAll in *. simpl fold_left.
    destruct (drop_spec b m a Hf) as (Hf1 & _).
    rewrite (IH _ Hf1), (drop_total _ _ _ Hf). simpl. lra.
Qed.

Lemma server_applyExpense_total b e :
  finite b ->
  total (Server.applyExpense b e) == total b + serverLeftover e.
Proof.
  intros Hf. rewrite server_applyExpense_charges.
  destruct (bump_spec b (Schema.paidBy e) (Schema.amount e) Hf) as (Hf1 & _).
  rewrite (dropAll_total _ _ Hf1), (bump_total _ _ _ Hf).
  unfold serverLeftover. lra.
Qed.

Lemma fold_server_total es b :
  finite b ->
  total (fold_left Server.applyExpense es b)
  == total b + Qsum (map serverLeftover es).
Proof.
  revert b. induction es as [| e es IH]; intros b Hf; simpl; [lra |].
  destruct (server_applyExpense_spec b e Hf) as (Hf1 & _).
  rewrite (IH _ Hf1), (server_applyExpense_total _ _ Hf). lra.
Qed.

Lemma serverLeftover_equal e : equalSplit e -> serverLeftover e == 0.
Proof.
  intros [Hu Hne]. unfold serverLeftover.
  rewrite (proj2 (charges_equal e Hu)), map_map. simpl.
  rewrite Qsum_const, (equalShare_total e Hne). lra.
Qed.

Lemma serverLeftover_equal_all es :
  Forall equalSplit es -> Qsum (map serverLeftover es) == 0.
Proof.
  induction es as [| e es IH]; intros He; [reflexivity |].
  apply Forall_cons in He as [H1 H2]. simpl.
  rewrite (serverLeftover_equal e H1), (IH H2). lra.
Qed.

(** X4: computed over the rationals (every addition, subtraction and
    division exact, where the doubles of the program round), the
    balances of calculateGroupAnalytics (server.js) sum to zero for
    every list of equal splits among somebody, whoever the payers and
    the participants are: members of the group or not, every identifier
    (an opaque string, not a name found on the prototype chain) gets its
    key. *)
Theorem server_zero_sum (es : list Schema.Expense) (ms : list string) :
  Forall equalSplit es ->
  exists s, sumValues (Server.groupBalances es ms) = JS.Fin s /\ s == 0.
Proof.
  intros He.
  destruct (sumValues_total _ (groupBalances_finite es ms))
    as (s & Hsum & Heq).
  exists s. split; [exact Hsum |]. rewrite Heq.
  unfold Server.groupBalances.
  rewrite (fold_server_total _ _ (balancesInit_finite ms)).
  rewrite balancesInit_total, (serverLeftover_equal_all es He). lra.
Qed.

Lemma server_zero_sum_witness :
  Forall equalSplit [Scenario.outsider] /\
  (exists s, sumValues (Server.groupBalances [Scenario.outsider]
                                             ["A"%string])
             = JS.Fin s /\ s == 0) /\
  Obj.keys (Server.groupBalances [Scenario.outsider] ["A"%string])
  = ["A"; "Z"]%string.
Proof.
  assert (H : Forall equalSplit [Scenario.outsider]).
  { constructor; [| constructor]. split; [reflexivity | discriminate]. }
  split; [exact H |]. split; [| reflexivity].
  exact (server_zero_sum [Scenario.outsider] ["A"%string] H).
Defined.

Lemma div_nat_finite s (n : nat) :
  n <> O -> JS.div (JS.Fin s) (JS.ofNat n)
            = JS.Fin (s / inject_Z (Z.of_nat n)).
Proof.
  intros Hn. unfold JS.div, JS.ofNat. now rewrite inject_nat_nonzero.
Qed.

(** X5: calculateGroupAnalytics returns whenever the balances it has
    computed are finite, which they are unless a sum overflows: its
    settlement loop ends on them (on infinite balances it need not, see
    infinite_balances_diverge).  splitPerPerson and averageExpense are
    guarded: they are 0 for a group without members and for a list
    without expenses. *)
Theorem group_analytics_returns (es : list Schema.Expense)
        (ms : list string) :
  finite (Server.groupBalances es ms) ->
  exists r, Server.calculateGroupAnalytics es ms = Some r /\
    Server.balances r = Server.groupBalances es ms /\
    Server.calculateSettlements (Server.balances r)
    = Some (Server.groupSettlements r) /\
    Server.totalExpenses r = length es /\
    (ms = [] -> Server.splitPerPerson r = JS.zero) /\
    (es = [] -> Server.averageExpense r = JS.zero).
Proof.
  intros Hfin. unfold Server.calculateGroupAnalytics.
  destruct (calculateSettlements_runs _ Hfin) as (st & _ & Hcalc).
  rewrite Hcalc.
  eexists. split; [reflexivity |].
  cbn [Server.balances Server.groupSettlements Server.totalExpenses
       Server.totalSpending Server.splitPerPerson Server.averageExpense].
  split; [reflexivity |]. split; [exact Hcalc |]. split; [reflexivity |].
  split; now intros ->.
Qed.

Lemma group_analytics_returns_witness :
  finite (Server.groupBalances [Scenario.dinner; Scenario.hotel]
                               ["A"; "B"; "C"]%string) /\
  exists r,
    Server.calculateGroupAnalytics [Scenario.dinner; Scenario.hotel]
                                   ["A"; "B"; "C"]%string = Some r /\
    Server.balances r
    = Server.groupBalances [Scenario.dinner; Scenario.hotel]
                           ["A"; "B"; "C"]%string /\
    Server.calculateSettlements (Server.balances r)
    = Some (Server.groupSettlements r) /\
    Server.totalExpenses r = length [Scenario.dinner; Scenario.hotel] /\
    (["A"; "B"; "C"]%string = [] -> Server.splitPerPerson r = JS.zero) /\
    ([Scenario.dinner; Scenario.hotel] = [] ->
     Server.averageExpense r = JS.zero).
Proof.
  assert (H : finite (Server.groupBalances [Scenario.dinner; Scenario.hotel]
                                           ["A"; "B"; "C"]%string)).
  { unfold finite. vm_compute. repeat constructor. }
  split; [exact H |].
  exact (group_analytics_returns _ _ H).
Defined.


(** ** The order of the expenses, the keys of the map *)

Lemma Qsum_perm (l l' : list Q) : Permutation l l' -> Qsum l == Qsum l'.
Proof.
  induction 1; simpl; lra.
Qed.

Lemma analyticsNet_perm es es' k :
  Permutation es es' -> analyticsNet es k == analyticsNet es' k.
Proof.
  intros H. unfold analyticsNet. apply Qsum_perm. now apply Permutation_map.
Qed.

Lemma calculateBalances_balanceOf es ms k :
  balanceOf (Analytics.calculateBalances es ms) k
  == if in_dec string_dec k ms then analyticsNet es k else 0.
Proof.
  unfold balanceOf. destruct (in_dec string_dec k ms) as [Hin | Hin].
  - destruct (calculateBalances_get es ms k Hin) as (q & -> & Heq).
    exact Heq.
  - rewrite (calculateBalances_get_None es ms k Hin). reflexivity.
Qed.

(** X6: computed over the rationals (exact arithmetic, where the
    doubles of the program round each operation and so depend on the
    order of summation), calculateBalances does not depend on the order
    of the expenses: two lists with the same expenses give maps with the
    same keys, in the same order, and the same balances. *)
Theorem balances_order (es es' : list Schema.Expense) (ms : list string) :
  Permutation es es' ->
  Obj.keys (Analytics.calculateBalances es ms)
  = Obj.keys (Analytics.calculateBalances es' ms) /\
  forall k, balanceOf (Analytics.calculateBalances es ms) k
            == balanceOf (Analytics.calculateBalances es' ms) k.
Proof.
  intros Hp. split.
  - now rewrite !calculateBalances_keys.
  - intros k. rewrite !calculateBalances_balanceOf.
    destruct (in_dec string_dec k ms); [| reflexivity].
    now apply analyticsNet_perm.
Qed.

Lemma balances_order_witness :
  Permutation [Scenario.dinner; Scenario.hotel]
              [Scenario.hotel; Scenario.dinner] /\
  Obj.keys (Analytics.calculateBalances [Scenario.dinner; Scenario.hotel]
                                        ["A"; "B"; "C"]%string)
  = Obj.keys (Analytics.calculateBalances [Scenario.hotel; Scenario.dinner]
                                          ["A"; "B"; "C"]%string) /\
  forall k, balanceOf (Analytics.calculateBalances
                         [Scenario.dinner; Scenario.hotel]
                         ["A"; "B"; "C"]%string) k
            == balanceOf (Analytics.calculateBalances
                            [Scenario.hotel; Scenario.dinner]
                            ["A"; "B"; "C"]%string) k.
Proof.
  assert (H : Permutation [Scenario.dinner; Scenario.hotel]
                          [Scenario.hotel; Scenario.dinner])
    by apply perm_swap.
  split; [exact H |].
  exact (balances_order _ _ ["A"; "B"; "C"]%string H).
Defined.

Lemma balancesInit_keys_nodup ms o :
  NoDup (Obj.keys o ++ ms) ->
  Obj.keys (fold_left (fun b m => Obj.set b m JS.zero) ms o)
  = Obj.keys o ++ ms.
Proof.
  revert o. induction ms as [| m ms IH]; intros o Hnd; simpl.
  - now rewrite app_nil_r.
  - assert (Hm : ~ In m (Obj.keys o)).
    { apply NoDup_app in Hnd as (_ & Hd & _). intros Hin.
      apply (Hd m); [now apply list_elem_of_In |]. apply elem_of_cons.
      now left. }
    rewrite IH; rewrite (keys_set_absent o m JS.zero Hm).
    + now rewrite <- app_assoc.
    + now rewrite <- app_assoc.
Qed.

(** X7: for a member list without repetitions, the keys of the map
    returned by calculateBalances are the members, in their order,
    whatever the expenses: no expense adds, removes or moves a key. *)
Theorem balances_keys (es : list Schema.Expense) (ms : list string) :
  NoDup ms -> Obj.keys (Analytics.calculateBalances es ms) = ms.
Proof.
  intros Hnd. rewrite calculateBalances_keys.
  unfold Analytics.balancesInit. now rewrite balancesInit_keys_nodup.
Qed.

Lemma balances_keys_witness :
  NoDup ["A"; "B"]%string /\
  Obj.keys (Analytics.calculateBalances
              [Scenario.outsider; Scenario.stranger] ["A"; "B"]%string)
  = ["A"; "B"]%string.
Proof.
  assert (H : NoDup ["A"; "B"]%string).
  { repeat (apply NoDup_cons; split); try constructor;
      rewrite list_elem_of_In; simpl; intuition discriminate. }
  split; [exact H |].
  exact (balances_keys _ _ H).
Defined.

(** ** The two calculators *)







(** ** What the planner of server.js emits *)

Lemma debtorsOf_pending b : finite b -> pending (debtorsOf b) 0.
Proof.
  intros Hf x p _ Hx. apply list_elem_of_lookup_2 in Hx.
  apply debtorsOf_elem in Hx as (v & Hin & Hd & ->).
  unfold finite in Hf. rewrite Forall_forall in Hf.
  apply list_elem_of_In in Hin. apply Hf in Hin. simpl in Hin.
  apply isFinite_inv in Hin as [q ->].
  unfold isDebtor in Hd. simpl in Hd. apply Qltb_lt in Hd.
  exists (- q). split; [reflexivity | lra].
Qed.

Lemma creditorsOf_pending b : finite b -> pending (creditorsOf b) 0.
Proof.
  intros Hf x p _ Hx. apply list_elem_of_lookup_2 in Hx.
  apply creditorsOf_elem in Hx as (v & Hin & Hc & ->).
  unfold finite in Hf. rewrite Forall_forall in Hf.
  apply list_elem_of_In in Hin. apply Hf in Hin. simpl in Hin.
  apply isFinite_inv in Hin as [q ->].
  unfold isCreditor, JS.gt in Hc. simpl in Hc. apply Qltb_lt in Hc.
  exists q. split; [reflexivity | lra].
Qed.

Lemma pending_step ps idx p a m :
  pending ps idx -> ps !! idx = Some p ->
  pending (<[idx := Server.mkParty (Server.person p) (JS.Fin (a + - m))]> ps)
          (if JS.Qltb (a + - m) 0.01 then S idx else idx).
Proof.
  intros Hpend Hp x p' Hle Hx.
  destruct (decide (x = idx)) as [-> | Hne].
  - rewrite list_lookup_insert_eq in Hx by (eapply lookup_lt_Some; eauto).
    injection Hx as <-. simpl. exists (a + - m). split; [reflexivity |].
    destruct (JS.Qltb (a + - m) 0.01) eqn:E; [lia |].
    now apply Qltb_ge in E.
  - rewrite list_lookup_insert_ne in Hx by congruence.
    apply (Hpend x p'); [| exact Hx].
    destruct (JS.Qltb (a + - m) 0.01); lia.
Qed.

(** X9: every settlement emitted by the planner of server.js, for a
    balance map of finite numbers, has an amount of 0.01 or more, and
    goes from a member to another one. *)
Theorem settlements_positive (b : Obj.t JS.number) (fuel : nat)
        (l : list Settlement.t) :
  Obj.wf b -> finite b -> Server.settle fuel b = Some l ->
  forall st, In st l ->
             (exists a, Settlement.amount st = JS.Fin a /\ 0.01 <= a) /\
             Settlement.from st <> Settlement.to st.
Proof.
  intros Hwf Hf Hs st Hin. split.
  - unfold Server.settle in Hs.
    destruct (Server.while fuel (Server.initial b)) as [st' |] eqn:Hw;
      [| discriminate].
    injection Hs as <-.
    pose (P := fun s =>
        pending (Server.debtors s) (Server.i s) /\
        pending (Server.creditors s) (Server.j s) /\
        forall st, In st (Server.settlements s) ->
                   exists a, Settlement.amount st = JS.Fin a /\ 0.01 <= a).
    destruct (while_invariant P) with (fuel := fuel)
      (st := Server.initial b) (st' := st') as [(_ & _ & H) _];
      [| | exact Hw | exact (H st Hin)].
    + intros s d c (Hpd & Hpc & Hall) Hd Hc.
      destruct (Hpd _ _ (Nat.le_refl _) Hd) as (a & Ha & Hage).
      destruct (Hpc _ _ (Nat.le_refl _) Hc) as (a' & Ha' & Hage').
      unfold P, Server.body. rewrite Ha, Ha', min_Fin. simpl.
      split; [| split].
      * now apply pending_step.
      * now apply pending_step.
      * intros st0 H0. apply in_app_iff in H0 as [H0 | [<- | []]];
          [now apply Hall |]. simpl. eexists. split; [reflexivity |].
        destruct (JS.Qltb a' a); assumption.
    + unfold P. rewrite initial_spec. simpl.
      split; [now apply debtorsOf_pending |].
      split; [now apply creditorsOf_pending | tauto].
  - destruct (settle_parties b fuel l st Hs Hin) as [Hfrom Hto].
    pose proof (persons_nodup b Hwf) as Hnd.
    apply NoDup_app in Hnd as (_ & Hdisj & _).
    intros Heq. apply (Hdisj _ Hfrom). now rewrite Heq.
Qed.

Lemma settlements_positive_witness :
  (Obj.wf Scenario.trip /\ finite Scenario.trip /\
   Server.settle 3 Scenario.trip
   = Some [Settlement.mk "B" "A" (JS.Fin (- -30));
           Settlement.mk "C" "A" (JS.Fin (- -30))]) /\
  forall st, In st [Settlement.mk "B" "A" (JS.Fin (- -30));
                    Settlement.mk "C" "A" (JS.Fin (- -30))] ->
             (exists a, Settlement.amount st = JS.Fin a /\ 0.01 <= a) /\
             Settlement.from st <> Settlement.to st.
Proof.
  assert (Hwf : Obj.wf Scenario.trip).
  { unfold Obj.wf. simpl.
    repeat (apply NoDup_cons; split); try constructor;
      rewrite list_elem_of_In; simpl; intuition discriminate. }
  assert (Hf : finite Scenario.trip) by repeat constructor.
  assert (Hs : Server.settle 3 Scenario.trip
               = Some [Settlement.mk "B" "A" (JS.Fin (- -30));
                       Settlement.mk "C" "A" (JS.Fin (- -30))])
    by reflexivity.
  split; [repeat split; assumption |].
  exact (settlements_positive Scenario.trip 3 _ Hwf Hf Hs).
Defined.

(** ** Paying the plan never goes past zero *)






(** ** Settled members and the plan *)

Lemma debtorsOf_unsettled b :
  debtorsOf (List.filter unsettled b) = debtorsOf b.
Proof.
  induction b as [| [k v] b IH]; simpl; [reflexivity |].
  unfold unsettled at 1. destruct (isDebtor (k, v)) eqn:Ed; simpl.
  - now rewrite Ed, IH.
  - destruct (isCreditor (k, v)); simpl; [rewrite Ed |]; exact IH.
Qed.

Lemma creditorsOf_unsettled b :
  creditorsOf (List.filter unsettled b) = creditorsOf b.
Proof.
  induction b as [| [k v] b IH]; simpl; [reflexivity |].
  unfold unsettled at 1. destruct (isCreditor (k, v)) eqn:Ec.
  - rewrite orb_true_r. simpl. now rewrite Ec, IH.
  - destruct (isDebtor (k, v)); simpl; [rewrite Ec |]; exact IH.
Qed.

(** X11: the members whose balance is within the dead zone (or is not a
    number) have no influence on the plan of server.js: taking them out
    of the balance map leaves the settlements as they are. *)
Theorem plan_ignores_settled (b : Obj.t JS.number) (fuel : nat) :
  Server.calculateSettlements (List.filter unsettled b)
  = Server.calculateSettlements b /\
  Server.settle fuel (List.filter unsettled b) = Server.settle fuel b.
Proof.
  assert (H : Server.initial (List.filter unsettled b) = Server.initial b).
  { now rewrite !initial_spec, debtorsOf_unsettled, creditorsOf_unsettled. }
  unfold Server.calculateSettlements, Server.settle. now rewrite H.
Qed.

(** ** What the planner of routes/analytics.js emits *)

Lemma forRange_invariant_from {A} (P : A -> Prop)
      (f : nat -> A -> Store.M A) (lo0 : nat) :
  (forall x acc s, (lo0 <= x)%nat -> P acc -> P (fst (f x acc s))) ->
  forall count lo acc s,
    (lo0 <= lo)%nat -> P acc -> P (fst (Store.forRange lo count f acc s)).
Proof.
  intros Hf. induction count as [| count IH]; intros lo acc s Hle HP; simpl.
  - exact HP.
  - unfold Store.bind. specialize (Hf lo acc s Hle HP).
    destruct (f lo acc s) as [a s']. apply IH; [lia | exact Hf].
Qed.

Lemma min_above b1 b2 :
  JS.gt b1 (JS.Fin 0.01) = true -> JS.lt b2 (JS.Fin (-0.01)) = true ->
  JS.gt (JS.min b1 (JS.neg b2)) (JS.Fin 0.01) = true.
Proof.
  unfold JS.gt.
  destruct b1 as [q1 | | |], b2 as [q2 | | |]; simpl; try discriminate;
    try (intros; assumption); try reflexivity.
  - intros H1 H2. apply Qltb_lt in H1, H2.
    destruct (JS.Qltb (- q2) q1); apply Qltb_lt; lra.
  - intros _ H2. apply Qltb_lt in H2. apply Qltb_lt. lra.
Qed.

Lemma pair_paired members i j member1 member2 balanceCopy acc s :
  (i < j)%nat -> members !! i = Some member1 ->
  members !! j = Some member2 ->
  (forall st, In st acc -> pairedIn members st) ->
  forall st, In st (fst (Analytics.pair balanceCopy member1 member2 acc s)) ->
             pairedIn members st.
Proof.
  intros Hij Hi Hj Hacc. unfold Analytics.pair, Store.bind, Store.getProp.
  destruct (match s !! balanceCopy with
            | Some o => Obj.get o member1
            | None => None
            end) as [balance1 |]; [| exact Hacc].
  destruct (match s !! balanceCopy with
            | Some o => Obj.get o member2
            | None => None
            end) as [balance2 |]; [| exact Hacc].
  destruct (JS.gt balance1 (JS.Fin 0.01)) eqn:G1; [| exact Hacc].
  destruct (JS.lt balance2 (JS.Fin (-0.01))) eqn:G2; [| exact Hacc].
  cbn [andb]. cbv zeta.
  destruct (Store.updateProp balanceCopy member1 _ s) as [[] s1].
  destruct (Store.updateProp balanceCopy member2 _ s1) as [[] s2].
  unfold Store.ret. cbn [fst].
  intros st Hst. apply in_app_iff in Hst as [Hst | [<- | []]];
    [now apply Hacc |].
  exists i, j. simpl. repeat split; auto. now apply min_above.
Qed.

Lemma calculateSettlements_paired s balances content :
  s !! balances = Some content ->
  forall st, In st (fst (Analytics.calculateSettlements balances s)) ->
             pairedIn (Obj.keys content) st.
Proof.
  intros Hb.
  unfold Analytics.calculateSettlements, Store.bind, Store.keysOf,
    Store.contentOf, Store.alloc.
  assert (Hkeys : from_option Obj.keys [] (s !! balances)
                  = Obj.keys content)
    by exact (f_equal (from_option Obj.keys []) Hb).
  rewrite Hkeys.
  apply (forRange_invariant_from
           (fun acc => forall st, In st acc -> pairedIn (Obj.keys content) st)
           _ 0); [| lia | intros st []].
  intros i acc s1 _ Hacc. unfold Analytics.inner.
  apply (forRange_invariant_from
           (fun acc => forall st, In st acc -> pairedIn (Obj.keys content) st)
           _ (S i)); [| lia | exact Hacc].
  intros j acc' s2 Hij Hacc'.
  destruct (Obj.keys content !! i) as [member1 |] eqn:Ei; [| exact Hacc'].
  destruct (Obj.keys content !! j) as [member2 |] eqn:Ej; [| exact Hacc'].
  eapply pair_paired; eauto.
Qed.

(** X12: every settlement emitted by the planner of routes/analytics.js
    is for more than 0.01 and pairs two keys of the balance map, the
    member who is paid coming before the member who pays in the order of
    the keys: a debtor is never paired with a creditor that comes after
    it. *)
Theorem analytics_pairs (s : Store.t) (balances : Store.ref)
        (content : Obj.t JS.number) :
  s !! balances = Some content ->
  forall st, In st (fst (Analytics.calculateSettlements balances s)) ->
    exists i j, (i < j)%nat /\
                Obj.keys content !! i = Some (Settlement.to st) /\
                Obj.keys content !! j = Some (Settlement.from st) /\
                JS.gt (Settlement.amount st) (JS.Fin 0.01) = true.
Proof.
  intros Hb st Hin.
  destruct (calculateSettlements_paired s balances content Hb st Hin)
    as (i & j & H).
  exists i, j. exact H.
Qed.

Lemma analytics_pairs_witness :
  [Scenario.trip] !! O = Some Scenario.trip /\
  forall st, In st (fst (Analytics.calculateSettlements O [Scenario.trip])) ->
    exists i j, (i < j)%nat /\
                Obj.keys Scenario.trip !! i = Some (Settlement.to st) /\
                Obj.keys Scenario.trip !! j = Some (Settlement.from st) /\
                JS.gt (Settlement.amount st) (JS.Fin 0.01) = true.
Proof.
  split; [reflexivity |].
  exact (analytics_pairs [Scenario.trip] O Scenario.trip eq_refl).
Defined.

(** ** The report of a group *)





Lemma div_by_length (x : JS.number) (n : nat) :
  JS.isFinite (JS.div x (JS.ofNat n))
  = JS.isFinite x && negb (n =? 0)%nat.
Proof.
  destruct n as [| n].
  - destruct x as [a | | |]; try reflexivity.
    unfold JS.div, JS.ofNat. simpl.
    destruct (JS.Qltb 0 a); [reflexivity |].
    destruct (JS.Qltb a 0); reflexivity.
  - destruct x as [a | | |]; try reflexivity;
      try (now rewrite div_nat_finite);
      unfold JS.div, JS.ofNat; now destruct (JS.Qltb _ 0).
Qed.

(** X14: in the report of routes/analytics.js totalExpenses is the
    number of the expenses of the group and averageExpense is guarded:
    it is 0 without expenses and finite whenever totalSpending is.
    splitPerPerson is totalSpending / members.length without a guard:
    for a group without members it is NaN or an infinity, whatever the
    expenses; otherwise it is finite exactly when totalSpending is. *)
Theorem report_numbers (db : Expenses.database) (userId groupId : string)
        (r : AnalyticsRoute.analytics) :
  AnalyticsRoute.groupAnalytics db userId groupId = Some r ->
  exists g, Expenses.findGroup db groupId userId = Some g /\
    AnalyticsRoute.totalSpending r
    = AnalyticsRoute.sumAmounts (AnalyticsRoute.expensesOf db groupId) /\
    AnalyticsRoute.totalExpenses r
    = length (AnalyticsRoute.expensesOf db groupId) /\
    (AnalyticsRoute.expensesOf db groupId = [] ->
     AnalyticsRoute.averageExpense r = JS.zero) /\
    JS.isFinite (AnalyticsRoute.averageExpense r)
    = JS.isFinite (AnalyticsRoute.totalSpending r) /\
    (Schema.members g = [] ->
     JS.isFinite (AnalyticsRoute.splitPerPerson r) = false) /\
    (Schema.members g <> [] ->
     JS.isFinite (AnalyticsRoute.splitPerPerson r)
     = JS.isFinite (AnalyticsRoute.totalSpending r)).
Proof.
  unfold AnalyticsRoute.groupAnalytics.
  destruct (Expenses.findGroup db groupId userId) as [g |]; [| discriminate].
  intros [= <-]. exists g. split; [reflexivity |].
  cbn [AnalyticsRoute.totalSpending AnalyticsRoute.totalExpenses
       AnalyticsRoute.averageExpense AnalyticsRoute.splitPerPerson].
  split; [reflexivity |]. split; [reflexivity |].
  split; [| split; [| split]].
  - now intros ->.
  - destruct (AnalyticsRoute.expensesOf db groupId) as [| e es];
      [reflexivity |].
    change (0 <? length (e :: es))%nat with true. cbv iota.
    rewrite div_by_length. simpl. apply andb_true_r.
  - intros ->. rewrite div_by_length. apply andb_false_r.
  - intros Hm. rewrite div_by_length.
    destruct (Schema.members g); [congruence |]. simpl. apply andb_true_r.
Qed.


Lemma report_numbers_witness :
  exists r,
    AnalyticsRoute.groupAnalytics Scenario.ledger "u1" "g1" = Some r /\
    exists g, Expenses.findGroup Scenario.ledger "g1" "u1" = Some g /\
      AnalyticsRoute.totalSpending r
      = AnalyticsRoute.sumAmounts
          (AnalyticsRoute.expensesOf Scenario.ledger "g1") /\
      AnalyticsRoute.totalExpenses r
      = length (AnalyticsRoute.expensesOf Scenario.ledger "g1") /\
      (AnalyticsRoute.expensesOf Scenario.ledger "g1" = [] ->
       AnalyticsRoute.averageExpense r = JS.zero) /\
      JS.isFinite (AnalyticsRoute.averageExpense r)
      = JS.isFinite (AnalyticsRoute.totalSpending r) /\
      (Schema.members g = [] ->
       JS.isFinite (AnalyticsRoute.splitPerPerson r) = false) /\
      (Schema.members g <> [] ->
       JS.isFinite (AnalyticsRoute.splitPerPerson r)
       = JS.isFinite (AnalyticsRoute.totalSpending r)).
Proof.
  eexists. split; [reflexivity |].
  exact (report_numbers Scenario.ledger "u1" "g1" _ eq_refl).
Defined.

(** ** The creation endpoint and the store *)

Lemma truthyString_nonempty s t :
  Expenses.truthyString s = Some t -> s = Some t /\ t <> EmptyString.
Proof.
  destruct s as [[| c s] |]; simpl; try discriminate.
  intros [= <-]. split; [reflexivity | discriminate].
Qed.

Lemma truthyNumber_nonzero x a :
  Expenses.truthyNumber x = Some a -> x = Some a /\ ~ a == 0.
Proof.
  destruct x as [q |]; simpl; [| discriminate].
  destruct (Qeq_bool q 0) eqn:E; [discriminate |].
  intros [= <-]. split; [reflexivity |].
  intros H. apply Qeq_bool_iff in H. congruence.
Qed.

Lemma categorizeExpense_enum title :
  In (Expenses.categorizeExpense title) categories.
Proof.
  unfold Expenses.categorizeExpense, categories.
  repeat match goal with
         | |- context [if ?c then _ else _] => destruct c
         end; simpl; tauto.
Qed.

(** The ways through the handler. *)
Lemma postExpense_cases accepts updates now db req :
  let r := Expenses.postExpense accepts updates now db req in
  (exists msg, r = (Expenses.bad msg, db)) \/
  r = (Expenses.mkResponse 404 "Group not found" None, db) \/
  exists gid t a p d sa g,
    Expenses.truthyString (Expenses.groupId req) = Some gid /\
    Expenses.truthyString (Expenses.title req) = Some t /\
    Expenses.truthyNumber (Expenses.amount req) = Some a /\
    Expenses.truthyString (Expenses.paidBy req) = Some p /\
    Expenses.truthyString (Expenses.date req) = Some d /\
    Expenses.splitAmong req = Some sa /\
    Expenses.findGroup db gid (Expenses.userId req) = Some g /\
    (forall custom, Expenses.splitMethod req = Some "custom"%string ->
                    Expenses.customAmounts req = Some custom ->
                    Expenses.offByACent custom a = false) /\
    r = Expenses.create accepts updates now db (Expenses.userId req) gid t
                        a p d sa (Expenses.splitMethod req)
                        (Expenses.customAmounts req).
Proof.
  unfold Expenses.postExpense.
  destruct (Expenses.truthyString (Expenses.groupId req)) as [gid |];
    [| left; eauto].
  destruct (Expenses.truthyString (Expenses.title req)) as [t |];
    [| left; eauto].
  destruct (Expenses.truthyNumber (Expenses.amount req)) as [a |];
    [| left; eauto].
  destruct (Expenses.truthyString (Expenses.paidBy req)) as [p |];
    [| left; eauto].
  destruct (Expenses.truthyString (Expenses.date req)) as [d |];
    [| left; eauto].
  destruct (Expenses.splitAmong req) as [sa |]; [| left; eauto].
  destruct (Expenses.findGroup db gid (Expenses.userId req)) as [g |] eqn:Eg;
    [| right; left; reflexivity].
  destruct (Expenses.splitMethod req) as [m |] eqn:Em.
  - destruct (String.eqb m "custom") eqn:Ec.
    + destruct (Expenses.customAmounts req) as [custom |] eqn:Eca;
        [| left; eauto].
      destruct (Expenses.offByACent custom a) eqn:E; [left; eauto |].
      right. right. exists gid, t, a, p, d, sa, g.
      do 6 (split; [reflexivity |]). split; [exact Eg |].
      split; [| reflexivity]. now intros custom' _ [= <-].
    + right. right. exists gid, t, a, p, d, sa, g.
      do 6 (split; [reflexivity |]). split; [exact Eg |].
      split; [| reflexivity]. intros custom [= ->]. discriminate.
  - right. right. exists gid, t, a, p, d, sa, g.
    do 6 (split; [reflexivity |]). split; [exact Eg |].
    split; [| reflexivity]. discriminate.
Qed.

Lemma touch_dated now gid groups :
  Forall2 (dated now gid) groups (Expenses.touch now gid groups).
Proof.
  assert (Hsame : forall l : list Schema.Group, Forall2 (dated now gid) l l).
  { induction l; constructor; auto. unfold dated. auto 10. }
  induction groups as [| g rest IH]; simpl; [constructor |].
  destruct (String.eqb (Schema._id g) gid) eqn:E.
  - constructor; [| apply Hsame]. apply String.eqb_eq in E.
    unfold dated. simpl. auto 10.
  - constructor; [| exact IH]. unfold dated. auto 10.
Qed.

Lemma not_longer {A} (l : list A) (x : A) : l <> l ++ [x].
Proof.
  intros H. apply (f_equal (@length A)) in H.
  rewrite length_app in H. simpl in H. lia.
Qed.

(** X15: the creation endpoint changes the store in these ways only.
    With 201 it has added one expense, created by the requester in a
    group of the requester and accepted by Expense.create, and has set
    updatedAt of that group, nothing else of the groups.  With 400 or
    404 the store is as it was.  With 500 either the store is as it was
    (Expense.create has thrown), or the expense has been added all the
    same and the groups are as they were: the update of the group has
    thrown after the creation. *)
Theorem post_effects (accepts : Schema.Expense -> bool)
        (updates : string -> bool) (now : nat)
        (db : Expenses.database) (req : Expenses.request) :
  let r := Expenses.postExpense accepts updates now db req in
  (exists doc g,
      accepts doc = true /\
      Expenses.expenses (snd r) = Expenses.expenses db ++ [doc] /\
      Schema.createdBy doc = Expenses.userId req /\
      Expenses.findGroup db (Schema.groupId doc) (Expenses.userId req)
      = Some g /\
      ((fst r = Expenses.mkResponse 201 "" (Some doc) /\
        updates (Schema.groupId doc) = true /\
        Expenses.groups (snd r)
        = Expenses.touch now (Schema.groupId doc) (Expenses.groups db) /\
        Forall2 (dated now (Schema.groupId doc))
                (Expenses.groups db) (Expenses.groups (snd r))) \/
       (Expenses.status (fst r) = 500%nat /\
        Expenses.expense (fst r) = None /\
        updates (Schema.groupId doc) = false /\
        Expenses.groups (snd r) = Expenses.groups db))) \/
  (snd r = db /\ Expenses.expense (fst r) = None /\
   In (Expenses.status (fst r)) [400; 404; 500]%nat).
Proof.
  intros r. subst r.
  destruct (postExpense_cases accepts updates now db req)
    as [[msg ->] | [-> | (gid & t & a & p & d & sa & g & _ & _ & _ & _ & _
                          & _ & Hg & _ & ->)]].
  - right. simpl. tauto.
  - right. simpl. tauto.
  - destruct (create_outcome accepts updates now db (Expenses.userId req)
                gid t a p d sa (Expenses.splitMethod req)
                (Expenses.customAmounts req)) as (doc & Hdoc & Hout).
    cbv zeta in Hout.
    assert (Hgid : Schema.groupId doc = gid) by now subst doc.
    assert (Hby : Schema.createdBy doc = Expenses.userId req)
      by now subst doc.
    destruct Hout as [(Ha & -> & ->) | [(Ha & Hu & -> & ->)
                                       | (Ha & Hu & -> & ->)]].
    + right. simpl. tauto.
    + left. exists doc, g. rewrite Hgid. simpl.
      do 4 (split; [assumption || reflexivity |]). left.
      do 3 (split; [assumption || reflexivity |]). apply touch_dated.
    + left. exists doc, g. rewrite Hgid. simpl.
      do 4 (split; [assumption || reflexivity |]). right. auto.
Qed.

(** X16: the creation endpoint answers "Please provide all required
    fields" exactly when groupId, title, paidBy or date is missing or
    empty, amount is missing or zero, or splitAmong is missing; an empty
    splitAmong is not missing. *)
Theorem post_required (accepts : Schema.Expense -> bool)
        (updates : string -> bool) (now : nat)
        (db : Expenses.database) (req : Expenses.request) :
  Expenses.error (fst (Expenses.postExpense accepts updates now db req))
  = "Please provide all required fields"%string <-> missingField req.
Proof.
  unfold missingField, Expenses.postExpense.
  destruct (Expenses.truthyString (Expenses.groupId req)) as [gid |];
    [| simpl; tauto].
  destruct (Expenses.truthyString (Expenses.title req)) as [t |];
    [| simpl; tauto].
  destruct (Expenses.truthyNumber (Expenses.amount req)) as [a |];
    [| simpl; tauto].
  destruct (Expenses.truthyString (Expenses.paidBy req)) as [p |];
    [| simpl; tauto].
  destruct (Expenses.truthyString (Expenses.date req)) as [d |];
    [| simpl; tauto].
  destruct (Expenses.splitAmong req) as [sa |]; [| simpl; tauto].
  assert (Hno : ~ (Some gid = None \/ Some t = None \/ Some a = None \/
                   Some p = None \/ Some d = None \/ Some sa = None))
    by intuition discriminate.
  split; [| tauto]. intros H. exfalso. revert H.
  destruct (Expenses.findGroup db gid (Expenses.userId req));
    [| discriminate].
  assert (Hcreate : forall sm ca,
             Expenses.error
               (fst (Expenses.create accepts updates now db
                                     (Expenses.userId req) gid t
                                     a p d sa sm ca))
             <> "Please provide all required fields"%string).
  { intros sm ca. unfold Expenses.create. cbv zeta.
    match goal with |- context [accepts ?doc] =>
      destruct (accepts doc) end; [| discriminate].
    destruct (updates gid); discriminate. }
  destruct (match Expenses.splitMethod req with
            | Some m => String.eqb m "custom"
            | None => false
            end); [| apply Hcreate].
  destruct (Expenses.customAmounts req) as [custom |]; [| discriminate].
  destruct (Expenses.offByACent _ _); [discriminate | apply Hcreate].
Qed.

(** X17: every expense that the creation endpoint adds to the store
    (with the answer 201, or 500 when only the update of the group has
    failed) has been accepted by Expense.create and has a title, a payer
    and a split method that are not empty and an amount that is not
    zero; its category is the one categorizeExpense gives to its title,
    one of the six categories of the schema; it carries customAmounts
    only when its split method is custom, and then
    Math.abs(totalCustom - amount) >= 0.01 is false of it, as the
    program computes it in double precision. *)
Theorem stored_document (accepts : Schema.Expense -> bool)
        (updates : string -> bool) (now : nat)
        (db : Expenses.database) (req : Expenses.request)
        (doc : Schema.Expense) :
  Expenses.expenses (snd (Expenses.postExpense accepts updates now db req))
  = Expenses.expenses db ++ [doc] ->
  accepts doc = true /\
  Schema.title doc <> EmptyString /\
  Schema.paidBy doc <> EmptyString /\
  Schema.splitMethod doc <> EmptyString /\
  ~ Schema.amount doc == 0 /\
  Schema.category doc = Expenses.categorizeExpense (Schema.title doc) /\
  In (Schema.category doc) categories /\
  (forall custom,
      Schema.customAmounts doc = Some custom ->
      Schema.splitMethod doc = "custom"%string /\
      JS.ge (JS.abs (JS.sub64 (Expenses.totalCustom custom)
                              (JS.Fin (Schema.amount doc))))
            (JS.literal 0.01) = false).
Proof.
  intros H.
  destruct (postExpense_cases accepts updates now db req)
    as [[msg Hr] | [Hr | (gid & t & a & p & d & sa & g & _ & Ht & Ha & Hp
                          & _ & _ & _ & Hclose & Hr)]];
    cbv zeta in Hr; rewrite Hr in H.
  - simpl in H. now apply not_longer in H.
  - simpl in H. now apply not_longer in H.
  - destruct (create_outcome accepts updates now db (Expenses.userId req)
                gid t a p d sa (Expenses.splitMethod req)
                (Expenses.customAmounts req)) as (doc' & Hdoc & Hout).
    cbv zeta in Hout.
    assert (Hacc : accepts doc' = true /\ doc' = doc).
    { destruct Hout as [(_ & _ & Hs) | [(Hacc & _ & _ & Hs)
                                       | (Hacc & _ & _ & Hs)]];
        rewrite Hs in H; simpl in H.
      - now apply not_longer in H.
      - apply app_inv_head in H. now injection H.
      - apply app_inv_head in H. now injection H. }
    destruct Hacc as [Hacc <-]. split; [exact Hacc |]. subst doc'.
    apply truthyString_nonempty in Ht as [_ Ht], Hp as [_ Hp].
    apply truthyNumber_nonzero in Ha as [_ Ha].
    unfold Expenses.document.
    cbn [Schema.title Schema.paidBy Schema.splitMethod
         Schema.amount Schema.category Schema.customAmounts].
    split; [exact Ht |]. split; [exact Hp |].
    split; [| split; [exact Ha |]].
    + destruct (Expenses.truthyString (Expenses.splitMethod req))
        as [m |] eqn:E; simpl; [| discriminate].
      now apply truthyString_nonempty in E.
    + split; [reflexivity |]. split; [apply categorizeExpense_enum |].
      intros custom Hca.
      destruct (Expenses.splitMethod req) as [m |] eqn:Em; [| discriminate].
      destruct (String.eqb m "custom") eqn:E; [| discriminate].
      apply String.eqb_eq in E. subst m. split; [reflexivity |].
      exact (Hclose custom eq_refl Hca).
Qed.

Lemma stored_document_witness :
  Expenses.expenses
    (snd (Expenses.postExpense (fun _ => true) (fun _ => false) 1
                               Scenario.db Scenario.hotelRequest))
  = Expenses.expenses Scenario.db ++ [Scenario.hotel] /\
  Expenses.status
    (fst (Expenses.postExpense (fun _ => true) (fun _ => false) 1
                               Scenario.db Scenario.hotelRequest))
  = 500%nat /\
  Schema.title Scenario.hotel <> EmptyString /\
  Schema.paidBy Scenario.hotel <> EmptyString /\
  Schema.splitMethod Scenario.hotel <> EmptyString /\
  ~ Schema.amount Scenario.hotel == 0 /\
  Schema.category Scenario.hotel
  = Expenses.categorizeExpense (Schema.title Scenario.hotel) /\
  In (Schema.category Scenario.hotel) categories /\
  (forall custom,
      Schema.customAmounts Scenario.hotel = Some custom ->
      Schema.splitMethod Scenario.hotel = "custom"%string /\
      JS.ge (JS.abs (JS.sub64 (Expenses.totalCustom custom)
                              (JS.Fin (Schema.amount Scenario.hotel))))
            (JS.literal 0.01) = false).
Proof.
  split; [reflexivity |]. split; [reflexivity |].
  exact (proj2 (stored_document (fun _ => true) (fun _ => false) 1
                                Scenario.db Scenario.hotelRequest
                                Scenario.hotel eq_refl)).
Defined.

(** ** Categories *)

Lemma lowerAscii_idem c :
  Expenses.lowerAscii (Expenses.lowerAscii c) = Expenses.lowerAscii c.
Proof.
  destruct c as [[] [] [] [] [] [] [] []]; vm_compute; reflexivity.
Qed.

Lemma toLowerCase_idem s :
  Expenses.toLowerCase (Expenses.toLowerCase s) = Expenses.toLowerCase s.
Proof.
  induction s as [| c s IH]; simpl; [reflexivity |].
  now rewrite lowerAscii_idem, IH.
Qed.

Lemma append_nil (t : string) : String.append EmptyString t = t.
Proof. reflexivity. Qed.

Lemma append_cons c (s t : string) :
  String.append (String c s) t = String c (String.append s t).
Proof. reflexivity. Qed.

Lemma toLowerCase_app s t :
  Expenses.toLowerCase (String.append s t)
  = String.append (Expenses.toLowerCase s) (Expenses.toLowerCase t).
Proof.
  induction s as [| c s IH]; [reflexivity |].
  rewrite append_cons. simpl. now rewrite IH, append_cons.
Qed.

Lemma prefix_app p b : String.prefix p (String.append p b) = true.
Proof.
  induction p as [| c p IH].
  - rewrite append_nil. now destruct b.
  - rewrite append_cons. simpl.
    destruct (ascii_dec c c); [exact IH | congruence].
Qed.

Lemma includes_head p b :
  Expenses.includes (String.append p b) p = true.
Proof.
  pose proof (prefix_app p b) as H.
  destruct (String.append p b); unfold Expenses.includes; now rewrite H.
Qed.

Lemma includes_app a p b :
  Expenses.includes (String.append a (String.append p b)) p = true.
Proof.
  induction a as [| c a IH].
  - rewrite append_nil. apply includes_head.
  - rewrite append_cons. simpl. rewrite IH. apply orb_true_r.
Qed.

(** X18: categorizeExpense always answers one of the six categories of
    the schema, and does not look at the case of the (ASCII) letters of
    the title. *)
Theorem categorize_total (title : string) :
  In (Expenses.categorizeExpense title) categories /\
  Expenses.categorizeExpense (Expenses.toLowerCase title)
  = Expenses.categorizeExpense title.
Proof.
  split; [apply categorizeExpense_enum |].
  unfold Expenses.categorizeExpense. cbv zeta.
  now rewrite toLowerCase_idem.
Qed.

(** X19: a title in which food, dinner, lunch or breakfast occurs, in
    any case and anywhere, also inside a word, is categorised Food
    whatever else it contains: the Food keywords are looked for
    first. *)
Theorem food_first (a w b : string) :
  In (Expenses.toLowerCase w)
     ["food"; "dinner"; "lunch"; "breakfast"]%string ->
  Expenses.categorizeExpense (String.append a (String.append w b))
  = "Food"%string.
Proof.
  intros Hw. unfold Expenses.categorizeExpense. cbv zeta.
  rewrite !toLowerCase_app.
  pose proof (includes_app (Expenses.toLowerCase a) (Expenses.toLowerCase w)
                           (Expenses.toLowerCase b)) as Hinc.
  set (lower := String.append (Expenses.toLowerCase a)
                  (String.append (Expenses.toLowerCase w)
                                 (Expenses.toLowerCase b))) in *.
  assert (Hfood : Expenses.includes lower "food"
                  || Expenses.includes lower "dinner"
                  || Expenses.includes lower "lunch"
                  || Expenses.includes lower "breakfast" = true).
  { destruct Hw as [E | [E | [E | [E | []]]]]; rewrite <- E in Hinc;
      rewrite Hinc; rewrite ?orb_true_r; reflexivity. }
  now rewrite Hfood.
Qed.

Lemma food_first_witness :
  In (Expenses.toLowerCase "DINNER")
     ["food"; "dinner"; "lunch"; "breakfast"]%string /\
  Expenses.categorizeExpense
    (String.append "Taxi to the " (String.append "DINNER" " at the hotel"))
  = "Food"%string.
Proof.
  assert (H : In (Expenses.toLowerCase "DINNER")
                 ["food"; "dinner"; "lunch"; "breakfast"]%string).
  { vm_compute. tauto. }
  split; [exact H |].
  exact (food_first "Taxi to the " "DINNER" " at the hotel" H).
Defined.

(** ** Groups *)

Lemma removeFirst_In matches l g :
  In g (Groups.removeFirst matches l) -> In g l.
Proof.
  induction l as [| x l IH]; simpl; [tauto |].
  destruct (matches x); simpl; [tauto |]. intros [H | H]; auto.
Qed.

Lemma removeFirst_keeps matches l g :
  In g l -> matches g = false -> In g (Groups.removeFirst matches l).
Proof.
  induction l as [| x l IH]; simpl; [tauto |].
  intros [-> | Hin] Hm.
  - rewrite Hm. now left.
  - destruct (matches x); [exact Hin |]. right. auto.
Qed.

Lemma removeFirst_length matches l g :
  List.find matches l = Some g ->
  S (length (Groups.removeFirst matches l)) = length l.
Proof.
  induction l as [| x l IH]; simpl; [discriminate |].
  destruct (matches x); [reflexivity |]. intros H. simpl. now rewrite IH.
Qed.

Lemma removeFirst_gone id user l g :
  NoDup (map Schema._id l) ->
  List.find (fun g => String.eqb (Schema._id g) id &&
                      String.eqb (Schema.owner g) user) l = Some g ->
  List.find (fun g => String.eqb (Schema._id g) id &&
                      String.eqb (Schema.owner g) user)
            (Groups.removeFirst
               (fun g => String.eqb (Schema._id g) id &&
                         String.eqb (Schema.owner g) user) l) = None.
Proof.
  induction l as [| x l IH]; simpl; [discriminate |].
  intros Hnd. apply NoDup_cons in Hnd as [Hx Hnd].
  destruct (String.eqb (Schema._id x) id && String.eqb (Schema.owner x) user)
    eqn:E.
  - intros _. apply andb_true_iff in E as [E _]. apply String.eqb_eq in E.
    destruct (List.find _ l) as [g' |] eqn:F; [| reflexivity].
    apply find_some in F as [Hin F]. apply andb_true_iff in F as [F _].
    apply String.eqb_eq in F. exfalso. apply Hx. rewrite list_elem_of_In.
    rewrite E, <- F. now apply in_map.
  - intros H. simpl. rewrite E. now apply IH.
Qed.

(** X20: the deletion endpoint of routes/groups.js, for a group of the
    requester, removes this group and no other, removes the expenses of
    the group and no other expense, and (the ids of the groups being
    distinct) leaves no group under this id: the report of the group is
    then a 404. *)
Theorem group_delete (db : Expenses.database) (userId id : string)
        (g : Schema.Group) :
  NoDup (map Schema._id (Expenses.groups db)) ->
  Expenses.findGroup db id userId = Some g ->
  let r := Groups.deleteGroup db userId id in
  Groups.status (fst r) = 200%nat /\
  (forall e, In e (Expenses.expenses (snd r)) <->
             In e (Expenses.expenses db) /\ Schema.groupId e <> id) /\
  (forall g', In g' (Expenses.groups (snd r)) <->
              In g' (Expenses.groups db) /\ Schema._id g' <> id) /\
  S (length (Expenses.groups (snd r))) = length (Expenses.groups db) /\
  Expenses.findGroup (snd r) id userId = None /\
  AnalyticsRoute.groupAnalytics (snd r) userId id = None.
Proof.
  intros Hnd Hg r. subst r. unfold Groups.deleteGroup. rewrite Hg.
  cbn [fst snd Groups.status Expenses.expenses Expenses.groups].
  set (matches := fun g0 => String.eqb (Schema._id g0) id &&
                            String.eqb (Schema.owner g0) userId).
  assert (Hgone : Expenses.findGroup
                    (Expenses.mkDatabase
                       (Groups.removeFirst matches (Expenses.groups db))
                       (List.filter
                          (fun e => negb (String.eqb (Schema.groupId e) id))
                          (Expenses.expenses db))) id userId = None).
  { unfold Expenses.findGroup. cbn [Expenses.groups].
    now apply (removeFirst_gone id userId _ g). }
  split; [reflexivity |]. split; [| split; [| split; [| split]]].
  - intros e. rewrite filter_In, negb_true_iff. split; intros [H1 H2];
      (split; [exact H1 |]).
    + now apply String.eqb_neq.
    + now apply String.eqb_neq.
  - intros g'. split.
    + intros Hin. split; [eapply removeFirst_In; eauto |].
      intros Heq. unfold Expenses.findGroup in Hg.
      fold matches in Hg.
      assert (Hlook : forall l,
                 NoDup (map Schema._id l) ->
                 List.find matches l = Some g ->
                 In g' (Groups.removeFirst matches l) -> False).
      { induction l as [| x l IH]; simpl; [discriminate |].
        intros Hd. apply NoDup_cons in Hd as [Hx Hd].
        destruct (matches x) eqn:E.
        - intros _ Hin'. unfold matches in E.
          apply andb_true_iff in E as [E _]. apply String.eqb_eq in E.
          apply Hx. rewrite list_elem_of_In, E, <- Heq. now apply in_map.
        - intros Hf [-> | Hin']; [| now apply IH].
          apply find_some in Hf as [Hin0 Hm]. unfold matches in Hm.
          apply andb_true_iff in Hm as [Hm _]. apply String.eqb_eq in Hm.
          apply Hx. rewrite list_elem_of_In, Heq, <- Hm. now apply in_map. }
      eapply Hlook; eauto.
    + intros [Hin Hne]. apply removeFirst_keeps; [exact Hin |].
      unfold matches. apply andb_false_iff. left. now apply String.eqb_neq.
  - eapply removeFirst_length. exact Hg.
  - exact Hgone.
  - unfold AnalyticsRoute.groupAnalytics. now rewrite Hgone.
Qed.

Lemma group_delete_witness :
  NoDup (map Schema._id (Expenses.groups Scenario.ledger)) /\
  Expenses.findGroup Scenario.ledger "g1" "u1" = Some Scenario.roommates /\
  let r := Groups.deleteGroup Scenario.ledger "u1" "g1" in
  Groups.status (fst r) = 200%nat /\
  (forall e, In e (Expenses.expenses (snd r)) <->
             In e (Expenses.expenses Scenario.ledger) /\
             Schema.groupId e <> "g1"%string) /\
  (forall g', In g' (Expenses.groups (snd r)) <->
              In g' (Expenses.groups Scenario.ledger) /\
              Schema._id g' <> "g1"%string) /\
  S (length (Expenses.groups (snd r)))
  = length (Expenses.groups Scenario.ledger) /\
  Expenses.findGroup (snd r) "g1" "u1" = None /\
  AnalyticsRoute.groupAnalytics (snd r) "u1" "g1" = None.
Proof.
  assert (Hnd : NoDup (map Schema._id (Expenses.groups Scenario.ledger))).
  { simpl. apply NoDup_singleton. }
  split; [exact Hnd |]. split; [reflexivity |].
  exact (group_delete Scenario.ledger "u1" "g1" Scenario.roommates
                      Hnd eq_refl).
Defined.

(** X21: a requester who owns no group with this id cannot delete
    anything through routes/groups.js: the answer is 404 and the store is
    as it was. *)
Theorem group_delete_foreign (db : Expenses.database) (userId id : string) :
  (forall g, In g (Expenses.groups db) -> Schema._id g = id ->
             Schema.owner g <> userId) ->
  Groups.deleteGroup db userId id
  = (Groups.mkResponse 404 "Group not found" None, db).
Proof.
  intros H. unfold Groups.deleteGroup.
  destruct (Expenses.findGroup db id userId) as [g |] eqn:E; [| reflexivity].
  unfold Expenses.findGroup in E. apply find_some in E as [Hin Hm].
  apply andb_true_iff in Hm as [H1 H2].
  apply String.eqb_eq in H1, H2. exfalso. exact (H g Hin H1 H2).
Qed.

Lemma group_delete_foreign_witness :
  (forall g, In g (Expenses.groups Scenario.ledger) ->
             Schema._id g = "g1"%string ->
             Schema.owner g <> "u2"%string) /\
  Groups.deleteGroup Scenario.ledger "u2" "g1"
  = (Groups.mkResponse 404 "Group not found" None, Scenario.ledger).
Proof.
  assert (H : forall g, In g (Expenses.groups Scenario.ledger) ->
                        Schema._id g = "g1"%string ->
                        Schema.owner g <> "u2"%string).
  { intros g [<- | []] _. discriminate. }
  split; [exact H |].
  exact (group_delete_foreign Scenario.ledger "u2" "g1" H).
Defined.

(** X22: the creation endpoint of routes/groups.js answers 400 exactly
    when the name is missing or empty or the members are missing or
    empty; it changes the store only by adding, when Group.create has
    accepted it, one group that belongs to the requester, has a name and
    at least one member. *)
Theorem group_create (accepts : Schema.Group -> bool) (now : nat)
        (db : Expenses.database) (id : string) (req : Groups.request) :
  let r := Groups.postGroup accepts now db id req in
  (Groups.status (fst r) = 400%nat <->
   Expenses.truthyString (Groups.name req) = None \/
   Groups.members req = None \/ Groups.members req = Some []) /\
  ((exists doc,
       fst r = Groups.mkResponse 201 "" (Some doc) /\
       accepts doc = true /\
       Expenses.groups (snd r) = Expenses.groups db ++ [doc] /\
       Expenses.expenses (snd r) = Expenses.expenses db /\
       Schema._id doc = id /\
       Schema.owner doc = Groups.userId req /\
       Schema.name doc <> EmptyString /\
       Some (Schema.members doc) = Groups.members req /\
       Schema.members doc <> []) \/
   (snd r = db /\ Groups.group (fst r) = None)).
Proof.
  intros r. subst r. unfold Groups.postGroup.
  destruct (Expenses.truthyString (Groups.name req)) as [name |] eqn:En.
  - destruct (Groups.members req) as [[| member others] |].
    + simpl. split; [tauto | right; auto].
    + apply truthyString_nonempty in En as [_ En].
      match goal with |- context [accepts ?doc] =>
        destruct (accepts doc) eqn:E end; simpl.
      * split; [split; [discriminate | intuition discriminate] |].
        left. eexists. repeat split; eauto.
      * split; [split; [discriminate | intuition discriminate] |].
        right. auto.
    + simpl. split; [tauto | right; auto].
  - destruct (Groups.members req) as [[| member others] |]; simpl;
      (split; [tauto | right; auto]).
Qed.

Lemma removeFirst_by_id (matches : Schema.Group -> bool) id l :
  (forall x, matches x = true -> Schema._id x = id) ->
  NoDup (map Schema._id l) ->
  (exists g, List.find matches l = Some g) ->
  forall g', In g' (Groups.removeFirst matches l) -> Schema._id g' <> id.
Proof.
  intros Hm. induction l as [| x l IH]; simpl.
  - intros _ [g Hg]. discriminate.
  - intros Hnd. apply NoDup_cons in Hnd as [Hx Hnd].
    destruct (matches x) eqn:E.
    + intros _ g' Hin Heq. apply Hx.
      rewrite list_elem_of_In, (Hm x E), <- Heq. now apply in_map.
    + intros [g Hg] g' [<- | Hin].
      * intros Heq. apply find_some in Hg as [Hin Hg].
        apply Hx. rewrite list_elem_of_In, Heq, <- (Hm g Hg).
        now apply in_map.
      * apply IH; eauto.
Qed.

(** X23: server.js deletes a group without asking whose it is.  For a
    group of somebody else, which the deletion endpoint of
    routes/groups.js refuses with a 404 and an unchanged store, the
    deletion endpoint of server.js removes the group and all its
    expenses, and nothing else (the ids of the groups being
    distinct). *)
Theorem server_delete_unguarded (db : Expenses.database)
        (userId id : string) (g : Schema.Group) :
  NoDup (map Schema._id (Expenses.groups db)) ->
  In g (Expenses.groups db) -> Schema._id g = id ->
  Schema.owner g <> userId ->
  Groups.deleteGroup db userId id
  = (Groups.mkResponse 404 "Group not found" None, db) /\
  ~ In g (Expenses.groups (ServerRoutes.deleteGroup db id)) /\
  (forall g', In g' (Expenses.groups (ServerRoutes.deleteGroup db id)) <->
              In g' (Expenses.groups db) /\ Schema._id g' <> id) /\
  (forall e, In e (Expenses.expenses (ServerRoutes.deleteGroup db id)) <->
             In e (Expenses.expenses db) /\ Schema.groupId e <> id).
Proof.
  intros Hnd Hin Hid Howner.
  assert (Hgroups : forall g',
             In g' (Expenses.groups (ServerRoutes.deleteGroup db id)) <->
             In g' (Expenses.groups db) /\ Schema._id g' <> id).
  { intros g'. unfold ServerRoutes.deleteGroup. cbn [Expenses.groups]. split.
    - intros H. split; [eapply removeFirst_In; eauto |].
      revert g' H. apply removeFirst_by_id; [| exact Hnd |].
      + intros x Hx. now apply String.eqb_eq.
      + destruct (List.find _ (Expenses.groups db)) as [g0 |] eqn:F; [eauto |].
        pose proof (find_none _ _ F g Hin) as Hno. simpl in Hno.
        apply String.eqb_neq in Hno. contradiction.
    - intros [H Hne]. apply removeFirst_keeps; [exact H |].
      now apply String.eqb_neq. }
  split; [| split; [| split; [exact Hgroups |]]].
  - unfold Groups.deleteGroup.
    destruct (Expenses.findGroup db id userId) as [g0 |] eqn:E;
      [| reflexivity].
    unfold Expenses.findGroup in E. apply find_some in E as [Hin0 Hm].
    apply andb_true_iff in Hm as [H1 H2]. apply String.eqb_eq in H1, H2.
    assert (g0 = g) as ->; [| contradiction].
    apply list_elem_of_In, list_elem_of_lookup_1 in Hin0 as [i Hi].
    apply list_elem_of_In, list_elem_of_lookup_1 in Hin as [j Hj].
    assert (i = j) as ->; [| congruence].
    apply (NoDup_lookup (map Schema._id (Expenses.groups db)) i j id);
      [exact Hnd | |]; rewrite list_lookup_fmap.
    + now rewrite Hi; simpl; rewrite H1.
    + now rewrite Hj; simpl; rewrite Hid.
  - intros H. apply Hgroups in H as [_ H]. contradiction.
  - intros e. unfold ServerRoutes.deleteGroup. cbn [Expenses.expenses].
    rewrite filter_In, negb_true_iff. split; intros [H1 H2];
      (split; [exact H1 | now apply String.eqb_neq]).
Qed.

Lemma server_delete_unguarded_witness :
  NoDup (map Schema._id (Expenses.groups Scenario.ledger)) /\
  In Scenario.roommates (Expenses.groups Scenario.ledger) /\
  Schema._id Scenario.roommates = "g1"%string /\
  Schema.owner Scenario.roommates <> "u2"%string /\
  Groups.deleteGroup Scenario.ledger "u2" "g1"
  = (Groups.mkResponse 404 "Group not found" None, Scenario.ledger) /\
  ~ In Scenario.roommates
       (Expenses.groups (ServerRoutes.deleteGroup Scenario.ledger "g1")) /\
  (forall g',
      In g' (Expenses.groups (ServerRoutes.deleteGroup Scenario.ledger "g1"))
      <-> In g' (Expenses.groups Scenario.ledger) /\
          Schema._id g' <> "g1"%string) /\
  (forall e,
      In e (Expenses.expenses (ServerRoutes.deleteGroup Scenario.ledger "g1"))
      <-> In e (Expenses.expenses Scenario.ledger) /\
          Schema.groupId e <> "g1"%string).
Proof.
  assert (Hnd : NoDup (map Schema._id (Expenses.groups Scenario.ledger))).
  { simpl. apply NoDup_singleton. }
  assert (Hin : In Scenario.roommates (Expenses.groups Scenario.ledger)).
  { simpl. tauto. }
  assert (Howner : Schema.owner Scenario.roommates <> "u2"%string).
  { discriminate. }
  split; [exact Hnd |]. split; [exact Hin |]. split; [reflexivity |].
  split; [exact Howner |].
  exact (server_delete_unguarded Scenario.ledger "u2" "g1" Scenario.roommates
                                 Hnd Hin eq_refl Howner).
Defined.
